(** * VisualizationFrame: registration, dispatch and outbound messages

    A shallow embedding of [src/visualization-frame.ts].

    The class keeps a private registry [callbacks] (a JS object used as a map
    from the runtime value of a [ViewerEvent] to an array of host functions),
    offers eight [on<Event>] registration methods, eight protected dispatch
    methods and two [send<Event>] methods that post an envelope to the
    embedded iframe.

    Methods are state-and-exception computations.  JS objects handed to the
    send methods live in a heap and are referred to by location, so that
    "same reference" and "fresh copy" can be stated. *)

From stdpp Require Import base gmap strings list fin_maps.

Set Default Proof Using "Type".
Open Scope string_scope.
Open Scope list_scope.

(** ** JS values, objects and the heap *)

Definition loc := nat.

Inductive Value :=
  | VUndefined
  | VNull
  | VBool (b : bool)
  | VNumber (n : Z)
  | VString (s : string)
  | VObject (l : loc).

#[global] Instance Value_eq_dec : EqDecision Value.
Proof. solve_decision. Defined.

(** An object is represented by its own enumerable string-keyed data
    properties; prototypes, accessors and symbol keys are not represented. *)
Abbreviation Obj := (gmap string Value).
Abbreviation Heap := (gmap loc Obj).

(** A host function (a callback) is a reference; what it does when called is
    given by the host program, see [invoke] below. *)
Definition Fn := nat.

(** ** Completions *)

(** The class itself only throws [new Error(message)]; the engine raises a
    [TypeError] on a property access on [undefined] or [null], the DOM raises
    a [DOMException], and a host callback may throw any value. *)
Inductive Exn :=
  | JsError (message : string)
  | TypeError
  | DOMException (exception_name : string)
  | JsThrown (v : Value).

#[global] Instance Exn_eq_dec : EqDecision Exn.
Proof. solve_decision. Defined.

Inductive Completion (A : Type) :=
  | Normal (a : A)
  | Throw (e : Exn).
Arguments Normal {A} a.
Arguments Throw {A} e.

(** ** State and exception monad *)

Definition SE (S A : Type) : Type := S → Completion A * S.

Definition ret {S A} (a : A) : SE S A := λ s, (Normal a, s).

Definition throw {S A} (e : Exn) : SE S A := λ s, (Throw e, s).

Definition bind {S A B} (c : SE S A) (k : A → SE S B) : SE S B :=
  λ s, match c s with
       | (Normal a, s') => k a s'
       | (Throw e, s') => (Throw e, s')
       end.

Definition gets {S A} (f : S → A) : SE S A := λ s, (Normal (f s), s).

Definition modify {S} (f : S → S) : SE S unit := λ s, (Normal tt, f s).

Notation "x <- c ;; k" := (bind c (λ x, k))
  (at level 100, c at next level, right associativity).
Notation "c ;; k" := (bind c (λ _, k))
  (at level 100, right associativity).

(** [Array.prototype.forEach] over an array that is not modified while it is
    traversed: the elements are visited from index 0 upwards, and an
    exception thrown by the function ends the traversal. *)
Fixpoint forEach {S A} (l : list A) (f : A → SE S unit) : SE S unit :=
  match l with
  | [] => ret tt
  | x :: l' => f x ;; forEach l' f
  end.

(** ** The DOM, as far as the class uses it *)

(** A DOM element.  [instanceof_HTMLElement] is the result of
    [element instanceof HTMLElement] (false for an SVG element, say). *)
Record Element := {
  node : nat;
  instanceof_HTMLElement : bool;
}.

(** What [document.querySelector] can do with a selector string. *)
Inductive QueryResult :=
  | QSyntaxError
  | QNull
  | QElement (e : Element).

Record IFrame := {
  src : string;
  style : gmap string string;
}.

(** The message handed to [postMessage]. *)
Record Envelope := {
  name : string;
  args : Value;
}.

Record Posted := {
  target_window : nat;
  message : Envelope;
  targetOrigin : string;
}.

Record Dom := {
  querySelector : string → QueryResult;
  next_node : nat;
  iframes : gmap nat IFrame;
  children : gmap nat (list nat);
  connected : gset nat;
  message_listeners : nat;
  posted : list Posted;
}.

(** Everything a host callback can reach. *)
Record Realm := {
  heap : Heap;
  page : Dom;
}.

Definition set_heap (f : Heap → Heap) (r : Realm) : Realm :=
  {| heap := f (heap r); page := page r |}.

Definition set_page (f : Dom → Dom) (r : Realm) : Realm :=
  {| heap := heap r; page := f (page r) |}.

(** ** DOM operations *)

(** [document.createElement('iframe')] *)
Definition createElement_iframe : SE Realm nat :=
  n <- gets (λ r, next_node (page r));;
  modify (set_page (λ d,
    {| querySelector := querySelector d;
       next_node := S n;
       iframes := <[n := {| src := ""; style := ∅ |}]> (iframes d);
       children := children d;
       connected := connected d;
       message_listeners := message_listeners d;
       posted := posted d |}));;
  ret n.

Definition update_iframe (n : nat) (f : IFrame → IFrame) : SE Realm unit :=
  modify (set_page (λ d,
    {| querySelector := querySelector d;
       next_node := next_node d;
       iframes := alter f n (iframes d);
       children := children d;
       connected := connected d;
       message_listeners := message_listeners d;
       posted := posted d |})).

(** [iframe.src = url] *)
Definition set_src (n : nat) (url : string) : SE Realm unit :=
  update_iframe n (λ i, {| src := url; style := style i |}).

(** [iframe.style.<prop> = value] *)
Definition set_style (n : nat) (prop value : string) : SE Realm unit :=
  update_iframe n (λ i, {| src := src i; style := <[prop := value]> (style i) |}).

(** [parent.appendChild(child)]: the child becomes the last child of the
    parent, and is connected to the document when the parent is. *)
Definition appendChild (parent child : nat) : SE Realm unit :=
  modify (set_page (λ d,
    {| querySelector := querySelector d;
       next_node := next_node d;
       iframes := iframes d;
       children := <[parent := default [] (children d !! parent) ++ [child]]> (children d);
       connected := if decide (parent ∈ connected d)
                    then {[child]} ∪ connected d else connected d;
       message_listeners := message_listeners d;
       posted := posted d |})).

(** [iframe.contentWindow]: an iframe has a content window exactly while it
    is attached to a document; the window is identified by the iframe. *)
Definition contentWindow (d : Dom) (iframe : nat) : option nat :=
  if decide (iframe ∈ connected d) then Some iframe else None.

(** [win.postMessage(message, targetOrigin)] *)
Definition postMessage (win : nat) (msg : Envelope) (origin : string) : Dom → Dom :=
  λ d,
    {| querySelector := querySelector d;
       next_node := next_node d;
       iframes := iframes d;
       children := children d;
       connected := connected d;
       message_listeners := message_listeners d;
       posted := posted d ++ [{| target_window := win; message := msg; targetOrigin := origin |}] |}.

(** [window.addEventListener('message', ...)] *)
Definition addEventListener_message : Dom → Dom :=
  λ d,
    {| querySelector := querySelector d;
       next_node := next_node d;
       iframes := iframes d;
       children := children d;
       connected := connected d;
       message_listeners := S (message_listeners d);
       posted := posted d |}.

(** ** Heap operations *)

(** [const o = {}] *)
Definition new_object : SE Realm loc :=
  l <- gets (λ r, fresh (dom (heap r)));;
  modify (set_heap (λ h, <[l := ∅]> h));;
  ret l.

(** The properties of the object at [l]. *)
Definition properties (h : Heap) (l : loc) : Obj := default ∅ (h !! l).

(** [Object.assign(target, source)]: every property of [source] is written
    to [target], replacing a property of the same name. *)
Definition Object_assign (target source : loc) : SE Realm unit :=
  modify (set_heap (λ h, alter (λ o, properties h source ∪ o) target h)).

(** [key in o] *)
Definition has_property (key : string) (o : loc) : SE Realm bool :=
  gets (λ r, bool_decide (is_Some (properties (heap r) o !! key))).

(** [delete o[key]] *)
Definition delete_property (o : loc) (key : string) : SE Realm unit :=
  modify (set_heap (λ h, alter (delete key) o h)).

(** [v.key] for an arbitrary value [v] and a key that no primitive wrapper
    defines (the class reads [args] only): a [TypeError] on [undefined] and
    [null], [undefined] when the property is absent. *)
Definition get_property (v : Value) (key : string) : SE Realm Value :=
  match v with
  | VUndefined | VNull => throw TypeError
  | VObject l => gets (λ r, default VUndefined (properties (heap r) l !! key))
  | VBool _ | VNumber _ | VString _ => ret VUndefined
  end.

(** ** Declarations the class imports *)

(** The members of the enum [ViewerEvent] ([./viewer-event]) that the class
    names.  Their runtime values, which are the keys of the registry, are a
    parameter of the development ([ViewerEvent_value] below). *)
Inductive ViewerEvent :=
  | TriggerConfigurationUpdate
  | UpdateRequirement
  | UpdateRequirements
  | UpdateImageValue
  | UpdateTextValue
  | UpdateLinkedConfigurationCardinality
  | RemoveLinkedConfiguration
  | DragStarted.

#[global] Instance ViewerEvent_eq_dec : EqDecision ViewerEvent.
Proof. solve_decision. Defined.

Definition ViewerEvent_all : list ViewerEvent :=
  [TriggerConfigurationUpdate; UpdateRequirement; UpdateRequirements;
   UpdateImageValue; UpdateTextValue; UpdateLinkedConfigurationCardinality;
   RemoveLinkedConfiguration; DragStarted].

(** [VisualizationFrameOptions] ([./models]): [container] is a selector
    string or an [HTMLElement]. *)
Inductive ContainerOption :=
  | Selector (selector : string)
  | Handle (element : Element).

Record VisualizationFrameOptions := {
  options_container : ContainerOption;
  options_url : string;
}.

(** [MessageEvent]: [data] is whatever the sender posted. *)
Record MessageEvent := {
  data : Value;
}.

(** ** The instance and the machine state *)

Record VisualizationFrame := {
  nativeElement : nat;
  container : Element;
  callbacks : gmap string (list Fn);
}.

(** One call of a host function: which function, with which argument. *)
Definition Invocation : Type := Fn * Value.

(** The state a method runs in: the instance [this], the realm, and the
    history of calls made to host functions (a ghost variable, written only
    by [call]). *)
Record Sys := {
  this : VisualizationFrame;
  realm : Realm;
  trace : list Invocation;
}.

Definition set_callbacks (f : gmap string (list Fn) → gmap string (list Fn)) (s : Sys) : Sys :=
  {| this := {| nativeElement := nativeElement (this s);
                container := container (this s);
                callbacks := f (callbacks (this s)) |};
     realm := realm s;
     trace := trace s |}.

Definition log (i : Invocation) (s : Sys) : Sys :=
  {| this := this s; realm := realm s; trace := trace s ++ [i] |}.

(** A computation on the realm, run inside a method. *)
Definition lift_realm {A} (c : SE Realm A) : SE Sys A :=
  λ s, let '(r, rm) := c (realm s) in
       (r, {| this := this s; realm := rm; trace := trace s |}).

(** ** Construction *)

(** Modelled from the spec: the base class [EventHandler] ([./event-handler])
    is not in the sources.  The spec describes no effect of constructing
    it. *)
Definition EventHandler_super : SE Realm unit := ret tt.

(** Modelled from the spec: [registerEventListeners] is inherited from
    [EventHandler].  Spec 4.1, Install: "attaches one listener to
    [channel]". *)
Definition registerEventListeners : SE Realm unit :=
  modify (set_page addEventListener_message).

Definition getContainer (options : VisualizationFrameOptions) : SE Realm Element :=
  match options_container options with
  | Selector selector =>
      q <- gets (λ r, querySelector (page r) selector);;
      match q with
      | QSyntaxError => throw (DOMException "SyntaxError")
      | QNull => throw (JsError "Container not found")
      | QElement element =>
          if instanceof_HTMLElement element then ret element
          else throw (JsError "Container must be an HTMLElement")
      end
  | Handle element => ret element
  end.

Definition render (options : VisualizationFrameOptions) (container : Element) : SE Realm nat :=
  iframe <- createElement_iframe;;
  set_src iframe (options_url options);;
  set_style iframe "width" "100%";;
  set_style iframe "height" "100%";;
  set_style iframe "border" "none";;
  set_style iframe "margin" "0";;
  set_style iframe "padding" "0";;
  set_style iframe "display" "block";;
  appendChild (node container) iframe;;
  ret iframe.

Definition constructor (options : VisualizationFrameOptions) : SE Realm VisualizationFrame :=
  EventHandler_super;;
  container <- getContainer options;;
  iframe <- render options container;;
  registerEventListeners;;
  ret {| nativeElement := iframe; container := container; callbacks := ∅ |}.

(** [new VisualizationFrame(options)] followed by the rest of the program:
    the state in which the methods of the new instance run. *)
Definition instance (fr : VisualizationFrame) (r : Realm) : Sys :=
  {| this := fr; realm := r; trace := [] |}.

(** ** What the class is linked against *)

(** The parts of the program that lie outside [visualization-frame.ts]:
    - [ViewerEvent_value]: the runtime value of each member of the enum
      [ViewerEvent], as a property key;
    - [kind_of_name]: the table of the message receiver, from the name of an
      inbound envelope to the event kind it stands for;
    - [invoke]: the host program; [invoke f v] is what calling the host
      function [f] with argument [v] does to the realm, and how it completes.

    Two things are left outside the model.  A host function acts on the
    realm only: it does not call back into the methods of the instance while
    a dispatch is running.  And the values of the enum are not names that an
    empty object inherits from [Object.prototype] ([constructor],
    [toString], ...), for which [this.callbacks[key]] would not be
    [undefined] on a new instance. *)
Class Host := {
  ViewerEvent_value : ViewerEvent → string;
  kind_of_name : string → option ViewerEvent;
  invoke : Fn → Value → SE Realm unit;
}.

Section VisualizationFrame.
Context `{!Host}.

Definition getNativeElement : SE Sys nat :=
  gets (λ s, nativeElement (this s)).

(** [this.callbacks[key]] *)
Definition bucket (key : ViewerEvent) (s : Sys) : option (list Fn) :=
  callbacks (this s) !! ViewerEvent_value key.

Definition addCallback (key : ViewerEvent) (callback : Fn) : SE Sys unit :=
  b <- gets (bucket key);;
  (if b is None then modify (set_callbacks (<[ViewerEvent_value key := []]>)) else ret tt);;
  b <- gets (bucket key);;
  match b with
  | None => throw TypeError
  | Some fns => modify (set_callbacks (<[ViewerEvent_value key := fns ++ [callback]]>))
  end.

Definition onTriggerConfigurationUpdate (callback : Fn) : SE Sys unit :=
  addCallback TriggerConfigurationUpdate callback.

Definition onUpdateRequirement (callback : Fn) : SE Sys unit :=
  addCallback UpdateRequirement callback.

Definition onUpdateRequirements (callback : Fn) : SE Sys unit :=
  addCallback UpdateRequirements callback.

Definition onUpdateImageValue (callback : Fn) : SE Sys unit :=
  addCallback UpdateImageValue callback.

Definition onUpdateTextValue (callback : Fn) : SE Sys unit :=
  addCallback UpdateTextValue callback.

Definition onUpdateLinkedConfigurationCardinality (callback : Fn) : SE Sys unit :=
  addCallback UpdateLinkedConfigurationCardinality callback.

Definition onDragStarted (callback : Fn) : SE Sys unit :=
  addCallback DragStarted callback.

Definition onRemoveLinkedConfiguration (callback : Fn) : SE Sys unit :=
  addCallback RemoveLinkedConfiguration callback.

Definition removeMethods (data : loc) : SE Realm Value :=
  o <- new_object;;
  Object_assign o data;;
  b <- has_property "_configuratorContext" o;;
  (if b then delete_property o "_configuratorContext" else ret tt);;
  ret (VObject o).

Definition sendMessage (name : string) (data : loc) : SE Sys unit :=
  w <- gets (λ s, contentWindow (page (realm s)) (nativeElement (this s)));;
  if w is None then throw (JsError "Native element does not have a content window")
  else
    w <- gets (λ s, contentWindow (page (realm s)) (nativeElement (this s)));;
    match w with
    | None => throw TypeError
    | Some win =>
        o <- lift_realm (removeMethods data);;
        lift_realm (modify (set_page (postMessage win {| name := name; args := o |} "*")))
    end.

Definition sendConfigurationUpdated (configuration : loc) : SE Sys unit :=
  sendMessage "elfsquad.configurationUpdated" configuration.

Definition sendStepChanged (step : loc) : SE Sys unit :=
  sendMessage "elfsquad.stepChanged" step.

(** [callback(data)]: the call is recorded, then the host function runs. *)
Definition call (callback : Fn) (data : Value) : SE Sys unit :=
  modify (log (callback, data));;
  lift_realm (invoke callback data).

Definition executeCallbacks (key : ViewerEvent) (data : Value) : SE Sys unit :=
  b <- gets (bucket key);;
  match b with
  | None => ret tt
  | Some fns => forEach fns (λ callback, call callback data)
  end.

(** [event.data.args] *)
Definition event_data_args (event : MessageEvent) : SE Sys Value :=
  lift_realm (get_property (data event) "args").

Definition triggerConfigurationUpdate (event : MessageEvent) : SE Sys unit :=
  a <- event_data_args event;; executeCallbacks TriggerConfigurationUpdate a.

Definition updateRequirement (event : MessageEvent) : SE Sys unit :=
  a <- event_data_args event;; executeCallbacks UpdateRequirement a.

Definition updateRequirements (event : MessageEvent) : SE Sys unit :=
  a <- event_data_args event;; executeCallbacks UpdateRequirements a.

Definition updateImageValue (event : MessageEvent) : SE Sys unit :=
  a <- event_data_args event;; executeCallbacks UpdateImageValue a.

Definition updateTextValue (event : MessageEvent) : SE Sys unit :=
  a <- event_data_args event;; executeCallbacks UpdateTextValue a.

Definition updateLinkedConfigurationCardinality (event : MessageEvent) : SE Sys unit :=
  a <- event_data_args event;; executeCallbacks UpdateLinkedConfigurationCardinality a.

Definition removeLinkedConfiguration (event : MessageEvent) : SE Sys unit :=
  a <- event_data_args event;; executeCallbacks RemoveLinkedConfiguration a.

Definition dragStarted (event : MessageEvent) : SE Sys unit :=
  a <- event_data_args event;; executeCallbacks DragStarted a.

(** The registration method of an event kind. *)
Definition on (K : ViewerEvent) : Fn → SE Sys unit :=
  match K with
  | TriggerConfigurationUpdate => onTriggerConfigurationUpdate
  | UpdateRequirement => onUpdateRequirement
  | UpdateRequirements => onUpdateRequirements
  | UpdateImageValue => onUpdateImageValue
  | UpdateTextValue => onUpdateTextValue
  | UpdateLinkedConfigurationCardinality => onUpdateLinkedConfigurationCardinality
  | RemoveLinkedConfiguration => onRemoveLinkedConfiguration
  | DragStarted => onDragStarted
  end.

(** The protected dispatch method of an event kind. *)
Definition dispatch (K : ViewerEvent) : MessageEvent → SE Sys unit :=
  match K with
  | TriggerConfigurationUpdate => triggerConfigurationUpdate
  | UpdateRequirement => updateRequirement
  | UpdateRequirements => updateRequirements
  | UpdateImageValue => updateImageValue
  | UpdateTextValue => updateTextValue
  | UpdateLinkedConfigurationCardinality => updateLinkedConfigurationCardinality
  | RemoveLinkedConfiguration => removeLinkedConfiguration
  | DragStarted => dragStarted
  end.

(** Modelled from the spec: the message listener that [EventHandler]
    installs is not in the sources.  Spec 4.1, On message arrived: "reads
    [envelope.name]; if it matches one of the fixed protocol name strings,
    invokes the corresponding dispatch method with [envelope.args]; if it
    does not match any known name, the message is silently ignored";
    "malformed envelopes (missing [name]) must not throw past the listener
    boundary; treat as unmatched and ignore". *)
Definition envelope_kind (h : Heap) (v : Value) : option ViewerEvent :=
  match v with
  | VObject l =>
      match properties h l !! "name" with
      | Some (VString n) => kind_of_name n
      | _ => None
      end
  | _ => None
  end.

(** Modelled from the spec: see [envelope_kind]. *)
Definition onMessage (event : MessageEvent) : SE Sys unit :=
  k <- gets (λ s, envelope_kind (heap (realm s)) (data event));;
  match k with
  | Some K => dispatch K event
  | None => ret tt
  end.

(** The host functions that a sequence of registration calls registers
    under a key, in the order of the calls. *)
Definition registrations_for (key : string) (regs : list (ViewerEvent * Fn)) : list Fn :=
  snd <$> filter (λ p, ViewerEvent_value p.1 = key) regs.

(** A sequence of registration calls. *)
Definition register_all (regs : list (ViewerEvent * Fn)) : SE Sys unit :=
  forEach regs (λ '(K, callback), on K callback).

End VisualizationFrame.

(** ** What a run of callbacks leaves *)

Section Outcomes.
Context `{!Host}.

(** The realm after the host functions [fns] have been called one after the
    other with the argument [P], starting in the realm [rm]. *)
Definition realm_after (fns : list Fn) (P : Value) (rm : Realm) : Realm :=
  foldl (λ rm f, (invoke f P rm).2) rm fns.

(** Each of the host functions [fns], called with [P] when its turn has come
    (after the ones before it in the list), returns. *)
Definition return_in_turn (fns : list Fn) (P : Value) (rm : Realm) : Prop :=
  ∀ i f, fns !! i = Some f →
         (invoke f P (realm_after (take i fns) P rm)).1 = Normal tt.

End Outcomes.

(** ** Statements of the specification that the code does not meet *)

Section Claims.
Context `{!Host}.

(** C4, as the claim states it: after two registrations of C for K, one
    dispatch of K, with an event whose [data] is an object with [args] P,
    calls C exactly twice, with P. *)
Definition registered_twice_invoked_twice_claim
    (options : VisualizationFrameOptions) (r0 : Realm) (K : ViewerEvent) (C : Fn)
    (event : MessageEvent) (l : loc) (props : Obj) (P : Value) : Prop :=
  ∀ fr r1, constructor options r0 = (Normal fr, r1) →
    data event = VObject l →
    props !! "args" = Some P →
    ∃ s1, (on K C;; on K C) (instance fr r1) = (Normal tt, s1) ∧
          ∀ s2, this s2 = this s1 →
                heap (realm s2) !! l = Some props →
                trace (dispatch K event s2).2 = trace s2 ++ [(C, P); (C, P)].

(** C5, as the claim states it: after any sequence of registrations, a
    dispatch of K, with an event whose [data] is an object with [args] P,
    calls every callback of the bucket of K, with P. *)
Definition dispatch_invokes_whole_bucket_claim
    (options : VisualizationFrameOptions) (r0 : Realm) (regs : list (ViewerEvent * Fn))
    (K : ViewerEvent) (event : MessageEvent) (l : loc) (props : Obj) (P : Value) : Prop :=
  ∀ fr r1, constructor options r0 = (Normal fr, r1) →
    data event = VObject l →
    props !! "args" = Some P →
    ∃ s1, register_all regs (instance fr r1) = (Normal tt, s1) ∧
          ∀ s2, this s2 = this s1 →
                heap (realm s2) !! l = Some props →
                trace (dispatch K event s2).2 =
                  trace s2 ++ ((λ f, (f, P)) <$> default [] (bucket K s1)).

End Claims.

(** C3, as the claim states it: the [args] of the envelope that
    [sendStepChanged] posts has the fields and values of the step. *)
Definition stepChanged_args_equal_step_claim (s : Sys) (step : loc) : Prop :=
  ∀ w props,
    contentWindow (page (realm s)) (nativeElement (this s)) = Some w →
    heap (realm s) !! step = Some props →
    ∃ s' o, sendStepChanged step s = (Normal tt, s') ∧
            posted (page (realm s')) =
              posted (page (realm s)) ++
              [{| target_window := w;
                  message := {| name := "elfsquad.stepChanged"; args := VObject o |};
                  targetOrigin := "*" |}] ∧
            heap (realm s') !! o = Some props.

(** What C10 says of a send method [send] that posts under [name]: called
    with the object [payload], whose properties are [props], it posts to the
    window [w] an envelope whose [args] is a newly allocated object without
    [_configuratorContext] that agrees with [payload] elsewhere, and it
    leaves [payload] alone. *)
Definition posts_sanitized_copy (send : loc → SE Sys unit) (name : string)
    (s : Sys) (payload : loc) (w : nat) (props : Obj) : Prop :=
  ∃ s' o args_props,
    send payload s = (Normal tt, s') ∧
    posted (page (realm s')) =
      posted (page (realm s)) ++
      [{| target_window := w;
          message := {| name := name; args := VObject o |};
          targetOrigin := "*" |}] ∧
    heap (realm s) !! o = None ∧
    o ≠ payload ∧
    heap (realm s') !! o = Some args_props ∧
    args_props !! "_configuratorContext" = None ∧
    (∀ key, key ≠ "_configuratorContext" → args_props !! key = props !! key) ∧
    heap (realm s') !! payload = Some props.

(** ** The error taxonomy of the spec *)

(** Spec 7: "[ContainerResolutionError] (construction-time, container key
    unresolved or wrong element kind)".  The class has no error classes; these
    are the two errors [getContainer] throws. *)
Definition ContainerResolutionError (e : Exn) : Prop :=
  e = JsError "Container not found" ∨ e = JsError "Container must be an HTMLElement".

(** Spec 7: "[NoChannelError] (send-time, embedded surface channel
    unavailable)": the error [sendMessage] throws. *)
Definition NoChannelError (e : Exn) : Prop :=
  e = JsError "Native element does not have a content window".

(** ** A concrete host, to run the definitions on *)

Definition example_value (K : ViewerEvent) : string :=
  match K with
  | TriggerConfigurationUpdate => "elfsquad.triggerConfigurationUpdate"
  | UpdateRequirement => "elfsquad.updateRequirement"
  | UpdateRequirements => "elfsquad.updateRequirements"
  | UpdateImageValue => "elfsquad.updateImageValue"
  | UpdateTextValue => "elfsquad.updateTextValue"
  | UpdateLinkedConfigurationCardinality => "elfsquad.updateLinkedConfigurationCardinality"
  | RemoveLinkedConfiguration => "elfsquad.removeLinkedConfiguration"
  | DragStarted => "elfsquad.dragStarted"
  end.

(** Host function 0 throws its argument; every other host function returns
    without touching the realm. *)
Definition example_invoke (f : Fn) (v : Value) : SE Realm unit :=
  if decide (f = 0) then throw (JsThrown v) else ret tt.

Definition example_host : Host := {|
  ViewerEvent_value := example_value;
  kind_of_name := λ n, list_find (λ K, example_value K = n) ViewerEvent_all ≫= λ p, Some p.2;
  invoke := example_invoke;
|}.

(** A page in which [#showroom] is a [div] of the document (node 1), [#logo]
    is an [svg] element (node 2), [[] is not a selector and no other selector
    matches. *)
Definition example_page : Dom := {|
  querySelector := λ sel,
    if decide (sel = "#showroom") then QElement {| node := 1; instanceof_HTMLElement := true |}
    else if decide (sel = "#logo") then QElement {| node := 2; instanceof_HTMLElement := false |}
    else if decide (sel = "[") then QSyntaxError
    else QNull;
  next_node := 3;
  iframes := ∅;
  children := ∅;
  connected := {[1; 2]};
  message_listeners := 0;
  posted := [];
|}.

(** A heap with
    - at 0, an inbound envelope [{name: 'elfsquad.dragStarted', args: 7}];
    - at 1, a configuration [{id: 'c1', _configuratorContext: <object 3>}];
    - at 2, a step [{title: 'Colour'}];
    - at 3, the configurator context, an object without properties;
    - at 4, a step that carries a [_configuratorContext] as well;
    - at 5, an inbound envelope [{name: 'elfsquad.resized', args: 1}], whose
      name is not in the receiver's table. *)
Definition example_heap : Heap :=
  {[ 0 := {[ "name" := VString "elfsquad.dragStarted"; "args" := VNumber 7 ]};
     1 := {[ "id" := VString "c1"; "_configuratorContext" := VObject 3 ]};
     2 := {[ "title" := VString "Colour" ]};
     3 := ∅;
     4 := {[ "title" := VString "Size"; "_configuratorContext" := VObject 3 ]};
     5 := {[ "name" := VString "elfsquad.resized"; "args" := VNumber 1 ]} ]}.

Definition example_realm : Realm := {| heap := example_heap; page := example_page |}.

Definition example_options : VisualizationFrameOptions :=
  {| options_container := Selector "#showroom"; options_url := "https://example.com/viewer" |}.

(** A container that is not attached to the document. *)
Definition detached_options : VisualizationFrameOptions :=
  {| options_container := Handle {| node := 9; instanceof_HTMLElement := true |};
     options_url := "https://example.com/viewer" |}.

(** [new VisualizationFrame({container: '#showroom', url: ...})] in
    [example_realm]: the instance and the realm it leaves. *)
Definition example_frame : VisualizationFrame :=
  {| nativeElement := 3;
     container := {| node := 1; instanceof_HTMLElement := true |};
     callbacks := ∅ |}.

Definition example_constructed : Realm :=
  (constructor example_options example_realm).2.

Definition example_instance : Sys := instance example_frame example_constructed.

(** The same with the detached container: the iframe has no content
    window. *)
Definition detached_frame : VisualizationFrame :=
  {| nativeElement := 3;
     container := {| node := 9; instanceof_HTMLElement := true |};
     callbacks := ∅ |}.

Definition detached_instance : Sys :=
  instance detached_frame (constructor detached_options example_realm).2.

Definition drag_event : MessageEvent := {| data := VObject 0 |}.

(** The properties of the object at location 0 of [example_heap]. *)
Definition drag_envelope : Obj :=
  {[ "name" := VString "elfsquad.dragStarted"; "args" := VNumber 7 ]}.

Definition resized_event : MessageEvent := {| data := VObject 5 |}.

(** ** Programs of the host *)

(** One call of a method of the instance, as the host (or, for the protected
    methods, the receiver) makes it. *)
Inductive MethodCall :=
  | CallOn (K : ViewerEvent) (callback : Fn)
  | CallDispatch (K : ViewerEvent) (event : MessageEvent)
  | CallSendConfigurationUpdated (configuration : loc)
  | CallSendStepChanged (step : loc)
  | CallGetNativeElement.

(** The registrations that a sequence of calls makes, in order. *)
Definition registrations_of (calls : list MethodCall) : list (ViewerEvent * Fn) :=
  omap (λ c, match c with CallOn K callback => Some (K, callback) | _ => None end) calls.

Section Programs.
Context `{!Host}.

Definition perform (c : MethodCall) : SE Sys unit :=
  match c with
  | CallOn K callback => on K callback
  | CallDispatch K event => dispatch K event
  | CallSendConfigurationUpdated configuration => sendConfigurationUpdated configuration
  | CallSendStepChanged step => sendStepChanged step
  | CallGetNativeElement => _ <- getNativeElement;; ret tt
  end.

(** The state after a sequence of calls, each made whether or not the one
    before it threw (the caller may catch). *)
Fixpoint perform_all (calls : list MethodCall) (s : Sys) : Sys :=
  match calls with
  | [] => s
  | c :: calls' => perform_all calls' (perform c s).2
  end.

End Programs.

(** The style that [render] gives the iframe. *)
Definition iframe_style : gmap string string :=
  list_to_map [("width", "100%"); ("height", "100%"); ("border", "none");
               ("margin", "0"); ("padding", "0"); ("display", "block")].

(** A send that succeeds and changes nothing but the heap, by one new
    object [o], and the list of posted messages, by one message. *)
Definition allocates_and_posts_only (send : loc → SE Sys unit)
    (s : Sys) (payload : loc) : Prop :=
  ∃ s' o,
    send payload s = (Normal tt, s') ∧
    this s' = this s ∧ trace s' = trace s ∧
    (o ∉ dom (heap (realm s))) ∧
    dom (heap (realm s')) = {[o]} ∪ dom (heap (realm s)) ∧
    (∀ l, l ≠ o → heap (realm s') !! l = heap (realm s) !! l) ∧
    length (posted (page (realm s'))) = S (length (posted (page (realm s)))) ∧
    take (length (posted (page (realm s)))) (posted (page (realm s')))
      = posted (page (realm s)) ∧
    iframes (page (realm s')) = iframes (page (realm s)) ∧
    children (page (realm s')) = children (page (realm s)) ∧
    connected (page (realm s')) = connected (page (realm s)) ∧
    next_node (page (realm s')) = next_node (page (realm s)) ∧
    message_listeners (page (realm s')) = message_listeners (page (realm s)).

(** A heap in which the configuration at 1 refers, under [steps], to the
    object at 2, and that object has a [_configuratorContext] of its own. *)
Definition nested_heap : Heap :=
  {[ 1 := {[ "steps" := VObject 2; "_configuratorContext" := VObject 3 ]};
     2 := {[ "title" := VString "Colour"; "_configuratorContext" := VObject 3 ]};
     3 := ∅ ]}.

Definition nested_instance : Sys :=
  instance example_frame
    {| heap := nested_heap; page := page example_constructed |}.

(** * Properties *)

(** ** The monad *)

Lemma bind_normal {S A B} (c : SE S A) (k : A → SE S B) s a s' :
  c s = (Normal a, s') → bind c k s = k a s'.
Proof. unfold bind. by intros ->. Qed.

Lemma bind_throw {S A B} (c : SE S A) (k : A → SE S B) s e s' :
  c s = (Throw e, s') → bind c k s = (Throw e, s').
Proof. unfold bind. by intros ->. Qed.

Lemma forEach_app {S A} (l1 l2 : list A) (f : A → SE S unit) s :
  forEach (l1 ++ l2) f s =
  match forEach l1 f s with
  | (Normal _, s') => forEach l2 f s'
  | (Throw e, s') => (Throw e, s')
  end.
Proof.
  revert s. induction l1 as [|x l1 IH]; intros s; simpl; [done|].
  unfold bind. destruct (f x s) as [[[]|e] s']; [apply IH | done].
Qed.

(** ** Construction *)

Lemma constructor_run options r0 :
  match getContainer options r0 with
  | (Normal c, r) =>
      ∃ r1, constructor options r0 =
              (Normal {| nativeElement := next_node (page r); container := c; callbacks := ∅ |}, r1)
  | (Throw e, r) => constructor options r0 = (Throw e, r)
  end.
Proof.
  destruct (getContainer options r0) as [[c|e] r] eqn:E;
    unfold constructor, EventHandler_super, bind, ret; cbv beta; rewrite E.
  - eexists. reflexivity.
  - done.
Qed.

(** The registry of a new instance is empty. *)
Lemma constructor_callbacks options r0 fr r1 :
  constructor options r0 = (Normal fr, r1) → callbacks fr = ∅.
Proof.
  intros Hc. pose proof (constructor_run options r0) as Hrun.
  destruct (getContainer options r0) as [[c|e] r].
  - destruct Hrun as (r1' & Hrun). rewrite Hrun in Hc. by injection Hc as <- _.
  - by rewrite Hrun in Hc.
Qed.

(** The constructor returns an instance when the container is given as an
    element, or as a selector that finds an [HTMLElement]. *)
Lemma constructor_returns options r0 :
  match options_container options with
  | Handle _ => True
  | Selector selector =>
      ∃ element, querySelector (page r0) selector = QElement element ∧
                 instanceof_HTMLElement element = true
  end →
  ∃ fr r1, constructor options r0 = (Normal fr, r1).
Proof.
  intros Hopt. pose proof (constructor_run options r0) as Hrun.
  unfold getContainer, bind, gets in Hrun.
  destruct (options_container options) as [selector|element]; simpl in Hrun.
  - destruct Hopt as (element & Hq & Hhtml). rewrite Hq, Hhtml in Hrun.
    destruct Hrun as (r1 & Hrun). eauto.
  - destruct Hrun as (r1 & Hrun). eauto.
Qed.

(** ** Outbound messages *)

(** The object [removeMethods] returns is allocated at a location that was
    free, and holds the properties of [data] without [_configuratorContext];
    nothing else in the heap changes. *)
Lemma removeMethods_run data r props :
  heap r !! data = Some props →
  removeMethods data r =
  (Normal (VObject (fresh (dom (heap r)))),
   set_heap (<[fresh (dom (heap r)) := delete "_configuratorContext" props]>) r).
Proof.
  intros Hdata.
  assert (heap r !! fresh (dom (heap r)) = None) as Hfresh
    by apply not_elem_of_dom, is_fresh.
  assert (fresh (dom (heap r)) ≠ data) as Hne by (intros E; congruence).
  destruct r as [h pg]. simpl in *.
  unfold removeMethods, new_object, Object_assign, has_property, delete_property,
    bind, gets, modify, ret, set_heap, properties. simpl.
  rewrite lookup_insert_ne, Hdata by done. simpl.
  rewrite alter_insert_eq, lookup_insert_eq, (right_id_L ∅ (∪)). simpl.
  case_bool_decide as Hin; simpl.
  - by rewrite alter_insert_eq.
  - rewrite delete_id; [done|]. by apply eq_None_not_Some.
Qed.

Lemma sendMessage_run name data s w props :
  contentWindow (page (realm s)) (nativeElement (this s)) = Some w →
  heap (realm s) !! data = Some props →
  sendMessage name data s =
  (Normal tt,
   {| this := this s;
      realm :=
        {| heap := <[fresh (dom (heap (realm s))) := delete "_configuratorContext" props]>
                     (heap (realm s));
           page := postMessage w {| name := name;
                                    args := VObject (fresh (dom (heap (realm s)))) |} "*"
                     (page (realm s)) |};
      trace := trace s |}).
Proof.
  intros Hw Hdata. unfold sendMessage, bind, gets. rewrite Hw. cbv beta iota.
  rewrite Hw. unfold lift_realm. by rewrite (removeMethods_run _ _ _ Hdata).
Qed.

Lemma sendMessage_no_window name data s :
  contentWindow (page (realm s)) (nativeElement (this s)) = None →
  sendMessage name data s =
  (Throw (JsError "Native element does not have a content window"), s).
Proof. intros Hw. unfold sendMessage, bind, gets. by rewrite Hw. Qed.

(** What every successful send does, whatever the name of the message. *)
Lemma sendMessage_envelope name data s w props :
  contentWindow (page (realm s)) (nativeElement (this s)) = Some w →
  heap (realm s) !! data = Some props →
  ∃ s' o,
    sendMessage name data s = (Normal tt, s') ∧
    posted (page (realm s')) =
      posted (page (realm s)) ++
      [{| target_window := w;
          message := {| name := name; args := VObject o |};
          targetOrigin := "*" |}] ∧
    heap (realm s) !! o = None ∧
    heap (realm s') !! o = Some (delete "_configuratorContext" props) ∧
    heap (realm s') !! data = Some props ∧
    this s' = this s ∧ trace s' = trace s.
Proof.
  intros Hw Hdata.
  assert (heap (realm s) !! fresh (dom (heap (realm s))) = None) as Hfresh
    by apply not_elem_of_dom, is_fresh.
  eexists _, _. split; [by apply sendMessage_run|]. simpl.
  repeat split; try done.
  - by rewrite lookup_insert_eq.
  - rewrite lookup_insert_ne; [done|]. intros E. congruence.
Qed.

(** C2. For every configuration [cfg] (an object of the heap) and while the
    iframe has a content window, [sendConfigurationUpdated(cfg)] posts one
    envelope named [elfsquad.configurationUpdated] whose [args] is a new
    object; that object has no field [_configuratorContext] and has every
    other field of [cfg] with its value, so when [cfg] has no
    [_configuratorContext] it has exactly the fields of [cfg]. *)
Theorem sendConfigurationUpdated_envelope s cfg w props :
  contentWindow (page (realm s)) (nativeElement (this s)) = Some w →
  heap (realm s) !! cfg = Some props →
  ∃ s' o args_props,
    sendConfigurationUpdated cfg s = (Normal tt, s') ∧
    posted (page (realm s')) =
      posted (page (realm s)) ++
      [{| target_window := w;
          message := {| name := "elfsquad.configurationUpdated"; args := VObject o |};
          targetOrigin := "*" |}] ∧
    o ≠ cfg ∧
    heap (realm s') !! o = Some args_props ∧
    (is_Some (props !! "_configuratorContext") →
     args_props !! "_configuratorContext" = None ∧
     ∀ key, key ≠ "_configuratorContext" → args_props !! key = props !! key) ∧
    (props !! "_configuratorContext" = None → args_props = props).
Proof.
  intros Hw Hdata.
  destruct (sendMessage_envelope "elfsquad.configurationUpdated" _ _ _ _ Hw Hdata)
    as (s' & o & Hrun & Hposted & Hfresh & Ho & _).
  exists s', o, (delete "_configuratorContext" props).
  repeat split; try done.
  - intros ->. congruence.
  - apply lookup_delete_eq.
  - intros key Hne. by apply lookup_delete_ne.
  - apply delete_id.
Qed.

(** C3, amended. For every step (an object of the heap) and while the iframe
    has a content window, [sendStepChanged(step)] posts one envelope named
    [elfsquad.stepChanged] whose [args] is a new object (allocated by the
    call, so not the step, which is left as it was) with the fields and
    values of the step other than [_configuratorContext]; it is structurally
    equal to the step when the step has no field [_configuratorContext]. *)
Theorem sendStepChanged_envelope s step w props :
  contentWindow (page (realm s)) (nativeElement (this s)) = Some w →
  heap (realm s) !! step = Some props →
  ∃ s' o args_props,
    sendStepChanged step s = (Normal tt, s') ∧
    posted (page (realm s')) =
      posted (page (realm s)) ++
      [{| target_window := w;
          message := {| name := "elfsquad.stepChanged"; args := VObject o |};
          targetOrigin := "*" |}] ∧
    heap (realm s) !! o = None ∧
    o ≠ step ∧
    heap (realm s') !! step = Some props ∧
    heap (realm s') !! o = Some args_props ∧
    args_props = delete "_configuratorContext" props ∧
    args_props !! "_configuratorContext" = None ∧
    (∀ key, key ≠ "_configuratorContext" → args_props !! key = props !! key) ∧
    (props !! "_configuratorContext" = None → args_props = props).
Proof.
  intros Hw Hdata.
  destruct (sendMessage_envelope "elfsquad.stepChanged" _ _ _ _ Hw Hdata)
    as (s' & o & Hrun & Hposted & Hfresh & Ho & Hstep & _).
  exists s', o, (delete "_configuratorContext" props). repeat split; try done.
  - intros ->. congruence.
  - apply lookup_delete_eq.
  - intros key Hne. by apply lookup_delete_ne.
  - apply delete_id.
Qed.

(** C10. For both send methods and every payload (an object of the heap),
    while the iframe has a content window: the [args] of the posted envelope
    is an object allocated by the call (its location was free before, so it
    is not the payload), it has no own field [_configuratorContext], it
    agrees with the payload on every other field, and the payload itself is
    left as it was. *)
Theorem send_args_fresh_copy_without_context s payload w props :
  contentWindow (page (realm s)) (nativeElement (this s)) = Some w →
  heap (realm s) !! payload = Some props →
  posts_sanitized_copy sendConfigurationUpdated "elfsquad.configurationUpdated"
    s payload w props ∧
  posts_sanitized_copy sendStepChanged "elfsquad.stepChanged" s payload w props.
Proof.
  intros Hw Hdata.
  assert (∀ name, posts_sanitized_copy (sendMessage name) name s payload w props) as Hany.
  { intros name.
    destruct (sendMessage_envelope name _ _ _ _ Hw Hdata)
      as (s' & o & Hrun & Hposted & Hfresh & Ho & Hpayload & _).
    exists s', o, (delete "_configuratorContext" props).
    repeat split; try done.
    - intros ->. congruence.
    - apply lookup_delete_eq.
    - intros key Hne. by apply lookup_delete_ne. }
  split; apply Hany.
Qed.

(** C8. When the iframe has no content window, [sendConfigurationUpdated]
    and [sendStepChanged] throw the error of the spec's category
    [NoChannelError] and leave the whole state as it was: no message is
    posted, no object is allocated, and the registry is the same. *)
Theorem send_without_content_window s payload :
  contentWindow (page (realm s)) (nativeElement (this s)) = None →
  ∃ e, NoChannelError e ∧
       sendConfigurationUpdated payload s = (Throw e, s) ∧
       sendStepChanged payload s = (Throw e, s).
Proof.
  intros Hw. eexists. split; [reflexivity|].
  split; by apply sendMessage_no_window.
Qed.

(** ** Failing construction *)

(** C7. When [options.container] is a selector for which
    [document.querySelector] returns [null], or returns an element that is
    not an [HTMLElement], the constructor throws an error of the spec's
    category [ContainerResolutionError] ([Container not found] in the first
    case, [Container must be an HTMLElement] in the second); it returns no
    instance and leaves the realm as it was (no iframe is created and no
    listener is attached). *)
Theorem constructor_container_unresolved options selector r :
  options_container options = Selector selector →
  querySelector (page r) selector = QNull ∨
  (∃ element, querySelector (page r) selector = QElement element ∧
              instanceof_HTMLElement element = false) →
  ∃ e, constructor options r = (Throw e, r) ∧
       ContainerResolutionError e ∧
       (querySelector (page r) selector = QNull → e = JsError "Container not found") ∧
       (querySelector (page r) selector ≠ QNull → e = JsError "Container must be an HTMLElement").
Proof.
  intros Hsel Hq.
  pose proof (constructor_run options r) as Hrun.
  unfold getContainer, bind, gets in Hrun. rewrite Hsel in Hrun. simpl in Hrun.
  destruct Hq as [Hq|(element & Hq & Hhtml)]; rewrite Hq in *.
  - eexists. split; [exact Hrun|]. split; [by left|]. by split.
  - rewrite Hhtml in Hrun. eexists. split; [exact Hrun|]. split; [by right|]. by split.
Qed.

Section Properties.
Context `{!Host}.

(** ** Registration *)

Lemma on_addCallback K callback : on K callback = addCallback K callback.
Proof. by destruct K. Qed.

Lemma dispatch_executeCallbacks K event :
  dispatch K event = (a <- event_data_args event;; executeCallbacks K a).
Proof. by destruct K. Qed.

Lemma addCallback_run K callback s :
  addCallback K callback s =
  (Normal tt,
   set_callbacks (<[ViewerEvent_value K := default [] (bucket K s) ++ [callback]]>) s).
Proof.
  destruct s as [[n c cbs] r t]. unfold addCallback, bind, gets, modify, ret, bucket, set_callbacks.
  simpl. destruct (cbs !! ViewerEvent_value K) as [fns|] eqn:E; simpl.
  - by rewrite E.
  - rewrite lookup_insert_eq. simpl. by rewrite insert_insert_eq.
Qed.

Lemma register_all_run regs s :
  ∃ s', register_all regs s = (Normal tt, s') ∧
        nativeElement (this s') = nativeElement (this s) ∧
        container (this s') = container (this s) ∧
        realm s' = realm s ∧ trace s' = trace s ∧
        ∀ key, callbacks (this s') !! key =
               match callbacks (this s) !! key, registrations_for key regs with
               | None, [] => None
               | o, l => Some (default [] o ++ l)
               end.
Proof.
  unfold register_all. revert s. induction regs as [|[K f] regs IH]; intros s.
  - exists s. repeat split; try done. intros key. simpl.
    destruct (callbacks (this s) !! key); simpl; by rewrite ?app_nil_r.
  - simpl. rewrite (bind_normal _ _ _ _ _ (eq_trans (f_equal (λ m, m s) (on_addCallback K f)) (addCallback_run K f s))).
    destruct (IH (set_callbacks (<[ViewerEvent_value K := default [] (bucket K s) ++ [f]]>) s))
      as (s' & -> & Hn & Hc & Hr & Ht & Hcb).
    exists s'. repeat split; try done. intros key. rewrite Hcb. unfold bucket. simpl.
    unfold registrations_for. rewrite filter_cons. simpl.
    destruct (decide (ViewerEvent_value K = key)) as [->|Hne].
    + rewrite lookup_insert_eq. simpl. rewrite <- app_assoc. simpl.
      by destruct (callbacks (this s) !! key).
    + by rewrite lookup_insert_ne.
Qed.

(** ** Dispatch *)

Lemma call_run callback data s :
  call callback data s =
  ((invoke callback data (realm s)).1,
   {| this := this s;
      realm := (invoke callback data (realm s)).2;
      trace := trace s ++ [(callback, data)] |}).
Proof.
  unfold call, bind, modify, lift_realm, log. simpl.
  by destruct (invoke callback data (realm s)) as [[[]|e] rm].
Qed.

Lemma executeCallbacks_run K data s :
  executeCallbacks K data s =
  forEach (default [] (bucket K s)) (λ callback, call callback data) s.
Proof.
  unfold executeCallbacks, bind, gets. by destruct (bucket K s).
Qed.

Lemma event_data_args_state event s : (event_data_args event s).2 = s.
Proof.
  unfold event_data_args, lift_realm, get_property.
  destruct s as [fr r t]. by destruct (data event).
Qed.

Lemma dispatch_run K event s P :
  (event_data_args event s).1 = Normal P →
  dispatch K event s = executeCallbacks K P s.
Proof.
  intros HP. rewrite dispatch_executeCallbacks.
  pose proof (event_data_args_state event s) as Hs.
  destruct (event_data_args event s) as [c s'] eqn:E. simpl in *. subst.
  by apply bind_normal.
Qed.

(** An event whose [data] is an object: the callbacks get its [args]. *)
Lemma dispatch_object_run K event s l props :
  data event = VObject l →
  heap (realm s) !! l = Some props →
  dispatch K event s = executeCallbacks K (default VUndefined (props !! "args")) s.
Proof.
  intros Hdata Hl. apply dispatch_run.
  unfold event_data_args, lift_realm. rewrite Hdata. simpl.
  unfold properties. by rewrite Hl.
Qed.

Lemma return_in_turn_cons f fns P rm :
  return_in_turn (f :: fns) P rm →
  (invoke f P rm).1 = Normal tt ∧ return_in_turn fns P (invoke f P rm).2.
Proof.
  intros Hret. split; [exact (Hret 0 f eq_refl)|].
  intros i g Hg. exact (Hret (S i) g Hg).
Qed.

(** When every function of the bucket returns in its turn, the traversal
    calls all of them and returns. *)
Lemma forEach_call_returning fns P s :
  return_in_turn fns P (realm s) →
  forEach fns (λ callback, call callback P) s =
  (Normal tt,
   {| this := this s;
      realm := realm_after fns P (realm s);
      trace := trace s ++ ((λ f, (f, P)) <$> fns) |}).
Proof.
  revert s. induction fns as [|f fns IH]; intros s Hret.
  - simpl. rewrite app_nil_r. by destruct s.
  - apply return_in_turn_cons in Hret as [Hf Hret].
    simpl. unfold bind. rewrite call_run. rewrite Hf.
    rewrite IH by exact Hret. simpl. by rewrite <- app_assoc.
Qed.

(** When the functions [before] return in their turn and the next one
    throws, the traversal stops there and throws what that function threw:
    the functions [after] are not called. *)
Lemma forEach_call_throwing before f after P s e :
  return_in_turn before P (realm s) →
  (invoke f P (realm_after before P (realm s))).1 = Throw e →
  forEach (before ++ f :: after) (λ callback, call callback P) s =
  (Throw e,
   {| this := this s;
      realm := (invoke f P (realm_after before P (realm s))).2;
      trace := trace s ++ ((λ f, (f, P)) <$> (before ++ [f])) |}).
Proof.
  intros Hret Hthrow. rewrite forEach_app, (forEach_call_returning _ _ _ Hret).
  simpl. unfold bind. rewrite call_run. simpl. rewrite Hthrow.
  by rewrite fmap_app, app_assoc.
Qed.

(** The traversal of a bucket calls a prefix of it, in order, each call
    with the same argument; the prefix is the whole bucket unless a call
    throws, and then the last function called is the one that threw.  The
    instance is left as it was. *)
Lemma forEach_call_run fns data s :
  ∃ n : nat, (n ≤ length fns)%nat ∧
       this (forEach fns (λ callback, call callback data) s).2 = this s ∧
       trace (forEach fns (λ callback, call callback data) s).2 =
         trace s ++ ((λ f, (f, data)) <$> take n fns) ∧
       ((forEach fns (λ callback, call callback data) s).1 = Normal tt → n = length fns) ∧
       (∀ e, (forEach fns (λ callback, call callback data) s).1 = Throw e →
             ∃ f rm, fns !! pred n = Some f ∧ (0 < n)%nat ∧ (invoke f data rm).1 = Throw e).
Proof.
  revert s. induction fns as [|f fns IH]; intros s.
  - exists 0. simpl. repeat split; try done. by rewrite app_nil_r.
  - simpl. unfold bind at 1 2 3 4. rewrite call_run.
    destruct (invoke f data (realm s)) as [[[]|e] rm] eqn:E; simpl.
    + match goal with |- context [forEach fns _ ?s0] =>
        destruct (IH s0) as (n & Hn & Hthis & Htr & Hok & Hex) end.
      exists (S n). simpl in *. repeat split.
      * lia.
      * done.
      * by rewrite Htr, <- app_assoc.
      * intros Hc. by rewrite (Hok Hc).
      * intros e Hc. destruct (Hex e Hc) as (g & rm' & Hg & Hpos & Hthrow).
        exists g, rm'. repeat split; [|lia|done].
        destruct n; [lia|done].
    + exists 1. simpl. repeat split; try done; try lia.
      intros e' [= <-]. exists f, (realm s). repeat split; [lia | by rewrite E].
Qed.

(** When no function of the bucket throws, all of them are called. *)
Lemma forEach_call_all fns data s :
  (∀ f rm, f ∈ fns → (invoke f data rm).1 = Normal tt) →
  (forEach fns (λ callback, call callback data) s).1 = Normal tt ∧
  trace (forEach fns (λ callback, call callback data) s).2 =
    trace s ++ ((λ f, (f, data)) <$> fns).
Proof.
  intros Hall.
  destruct (forEach_call_run fns data s) as (n & Hn & _ & Htr & Hok & Hex).
  destruct (forEach fns (λ callback, call callback data) s) as [[[]|e] s'] eqn:E; simpl in *.
  - split; [done|]. rewrite Htr, (Hok eq_refl). by rewrite firstn_all.
  - destruct (Hex e eq_refl) as (f & rm & Hf & _ & Hthrow).
    rewrite Hall in Hthrow; [done|]. by eapply list_elem_of_lookup_2.
Qed.

(** The registry of a new instance after a sequence of registration
    calls. *)
Lemma registry_after_registrations options r0 fr r1 regs :
  constructor options r0 = (Normal fr, r1) →
  ∃ s1, register_all regs (instance fr r1) = (Normal tt, s1) ∧
        realm s1 = r1 ∧ trace s1 = [] ∧
        ∀ key, callbacks (this s1) !! key =
               match registrations_for key regs with
               | [] => None
               | l => Some l
               end.
Proof.
  intros Hc. apply constructor_callbacks in Hc.
  destruct (register_all_run regs (instance fr r1)) as (s1 & Hrun & _ & _ & Hr & Ht & Hcb).
  exists s1. repeat split; try done. intros key. rewrite Hcb. simpl.
  by rewrite Hc, lookup_empty.
Qed.

Lemma registrations_for_same K fns :
  registrations_for (ViewerEvent_value K) ((λ f, (K, f)) <$> fns) = fns.
Proof.
  unfold registrations_for. induction fns as [|f fns IH]; [done|].
  rewrite fmap_cons, filter_cons_True by done. rewrite fmap_cons. simpl.
  f_equal. exact IH.
Qed.

(** ** The claims on registration and dispatch *)

(** C1. For every event kind K and payload P: on a newly constructed
    frame, after the on<Event> method of K has been called once with
    callback C, the protected dispatch method of K, called with an event
    whose [data] is an object with [args] P, calls C exactly once, with
    argument P: the call history grows by that one call, the realm is the
    one C leaves, and the method completes as C does. *)
Theorem registered_once_invoked_once options r0 fr r1 K C event l props P :
  constructor options r0 = (Normal fr, r1) →
  data event = VObject l →
  props !! "args" = Some P →
  ∃ s1, on K C (instance fr r1) = (Normal tt, s1) ∧
        ∀ s2, this s2 = this s1 →
              heap (realm s2) !! l = Some props →
              dispatch K event s2 =
              ((invoke C P (realm s2)).1,
               {| this := this s2;
                  realm := (invoke C P (realm s2)).2;
                  trace := trace s2 ++ [(C, P)] |}).
Proof.
  intros Hc Hdata Hargs.
  destruct (registry_after_registrations _ _ _ _ ((λ f, (K, f)) <$> [C]) Hc) as (s1 & Hrun & _ & _ & Hcb).
  exists s1. split.
  - unfold register_all in Hrun. simpl in Hrun. unfold bind in Hrun.
    by destruct (on K C (instance fr r1)) as [[[]|e] s'].
  - intros s2 Hthis Hl.
    rewrite (dispatch_object_run _ _ _ _ _ Hdata Hl), Hargs, executeCallbacks_run.
    assert (bucket K s2 = Some [C]) as ->
      by (unfold bucket; by rewrite Hthis, Hcb, (registrations_for_same K [C])).
    simpl. unfold bind. rewrite call_run. simpl.
    by destruct (invoke C P (realm s2)) as [[[]|e] rm].
Qed.

(** C4, amended. For every event kind K and callback C: on a newly
    constructed frame, after two calls of the on<Event> method of K with C,
    one dispatch of K with an event whose [data] is an object with [args] P
    calls C twice, both times with P, when the first call of C returns: the
    second call runs in the realm the first one left, and the method
    completes as the second call does.  When the first call of C throws, C
    is called once and the dispatch method throws what C threw. *)
Theorem registered_twice_invoked_twice options r0 fr r1 K C event l props P :
  constructor options r0 = (Normal fr, r1) →
  data event = VObject l →
  props !! "args" = Some P →
  ∃ s1, (on K C;; on K C) (instance fr r1) = (Normal tt, s1) ∧
        ∀ s2, this s2 = this s1 →
              heap (realm s2) !! l = Some props →
              match invoke C P (realm s2) with
              | (Normal _, rm1) =>
                  dispatch K event s2 =
                  ((invoke C P rm1).1,
                   {| this := this s2;
                      realm := (invoke C P rm1).2;
                      trace := trace s2 ++ [(C, P); (C, P)] |})
              | (Throw e, rm1) =>
                  dispatch K event s2 =
                  (Throw e,
                   {| this := this s2; realm := rm1; trace := trace s2 ++ [(C, P)] |})
              end.
Proof.
  intros Hc Hdata Hargs.
  destruct (registry_after_registrations _ _ _ _ ((λ f, (K, f)) <$> [C; C]) Hc)
    as (s1 & Hrun & _ & _ & Hcb).
  exists s1. split.
  - unfold register_all in Hrun. simpl in Hrun. unfold bind in *.
    destruct (on K C (instance fr r1)) as [[[]|e] s']; [|done].
    by destruct (on K C s') as [[[]|e] s''].
  - intros s2 Hthis Hl.
    rewrite (dispatch_object_run _ _ _ _ _ Hdata Hl), Hargs, executeCallbacks_run.
    assert (bucket K s2 = Some [C; C]) as ->
      by (unfold bucket; by rewrite Hthis, Hcb, (registrations_for_same K [C; C])).
    simpl. unfold bind. rewrite !call_run. simpl.
    destruct (invoke C P (realm s2)) as [[[]|e] rm]; simpl; [|done].
    rewrite <- app_assoc. simpl.
    by destruct (invoke C P rm) as [[[]|e] rm'].
Qed.

(** C5, amended. For every event kind K, every sequence of registrations
    and every payload P: the bucket of K holds the callbacks registered
    under the key of K, in the order of the registration calls.  A dispatch
    of K with an event whose [data] is an object with [args] P calls the
    callbacks of the bucket in that order, each with the same P and each in
    the realm the one before it left.  When every callback returns in its
    turn, all of them are called and the dispatch returns.  When the
    callbacks [before] return in their turn and the next callback [f]
    throws, the dispatch stops there: the callbacks [after] are not called,
    and the dispatch throws what [f] threw. *)
Theorem dispatch_in_registration_order options r0 fr r1 regs K event l props P :
  constructor options r0 = (Normal fr, r1) →
  data event = VObject l →
  props !! "args" = Some P →
  ∃ s1, register_all regs (instance fr r1) = (Normal tt, s1) ∧
        default [] (bucket K s1) = registrations_for (ViewerEvent_value K) regs ∧
        ∀ s2, this s2 = this s1 →
              heap (realm s2) !! l = Some props →
              (return_in_turn (default [] (bucket K s1)) P (realm s2) →
               dispatch K event s2 =
               (Normal tt,
                {| this := this s2;
                   realm := realm_after (default [] (bucket K s1)) P (realm s2);
                   trace := trace s2 ++ ((λ f, (f, P)) <$> default [] (bucket K s1)) |})) ∧
              (∀ before f after e,
                 default [] (bucket K s1) = before ++ f :: after →
                 return_in_turn before P (realm s2) →
                 (invoke f P (realm_after before P (realm s2))).1 = Throw e →
                 dispatch K event s2 =
                 (Throw e,
                  {| this := this s2;
                     realm := (invoke f P (realm_after before P (realm s2))).2;
                     trace := trace s2 ++ ((λ f, (f, P)) <$> (before ++ [f])) |})).
Proof.
  intros Hc Hdata Hargs.
  destruct (registry_after_registrations _ _ _ _ regs Hc) as (s1 & Hrun & _ & _ & Hcb).
  exists s1. split; [done|]. split.
  - unfold bucket. rewrite Hcb. by destruct (registrations_for _ regs).
  - intros s2 Hthis Hl.
    rewrite (dispatch_object_run _ _ _ _ _ Hdata Hl), Hargs, executeCallbacks_run.
    replace (bucket K s2) with (bucket K s1) by (unfold bucket; by rewrite Hthis).
    simpl. split.
    + apply forEach_call_returning.
    + intros before f after e -> Hret Hthrow. by apply forEach_call_throwing.
Qed.

(** When the members of the enum have distinct values, the callbacks
    registered under the key of K are the callbacks registered for K. *)
Lemma registrations_for_kind regs K :
  Inj (=) (=) ViewerEvent_value →
  registrations_for (ViewerEvent_value K) regs = snd <$> filter (λ p, p.1 = K) regs.
Proof.
  intros Hinj. unfold registrations_for. f_equal.
  apply list_filter_iff. intros [K' f]. simpl. split; [apply Hinj | by intros ->].
Qed.

Lemma forEach_call_set_callbacks g fns data s :
  forEach fns (λ callback, call callback data) (set_callbacks g s) =
  ((forEach fns (λ callback, call callback data) s).1,
   set_callbacks g (forEach fns (λ callback, call callback data) s).2).
Proof.
  revert s. induction fns as [|f fns IH]; intros s; [done|].
  simpl. unfold bind. rewrite !call_run. simpl.
  destruct (invoke f data (realm s)) as [[[]|e] rm]; simpl; [|done].
  match goal with |- _ = (?a.1, set_callbacks g ?a.2) =>
    match a with forEach _ _ ?s0 => rewrite <- (IH s0) end end.
  done.
Qed.

Lemma dispatch_this K event s : this (dispatch K event s).2 = this s.
Proof.
  rewrite dispatch_executeCallbacks. unfold bind.
  pose proof (event_data_args_state event s) as Hs.
  destruct (event_data_args event s) as [[P|e] s']; simpl in Hs; subst s'; [|done].
  rewrite executeCallbacks_run.
  by destruct (forEach_call_run (default [] (bucket K s)) P s) as (n & _ & Hthis & _).
Qed.

(** C9. Every registration call returns, appends the callback to the
    bucket under the key of the registered event kind, and leaves every
    other bucket, the realm and the call history as they were.  Every
    dispatch call leaves the registry (the whole instance) as it was, and
    its outcome depends on the registry only through the bucket of the
    dispatched kind: in a registry that agrees with the present one on that
    bucket, the dispatch completes in the same way, with the same realm
    and the same calls. *)
Theorem registration_and_dispatch_touch_one_bucket K C event s :
  (∃ s', on K C s = (Normal tt, s') ∧
         bucket K s' = Some (default [] (bucket K s) ++ [C]) ∧
         (∀ key, key ≠ ViewerEvent_value K →
                 callbacks (this s') !! key = callbacks (this s) !! key) ∧
         nativeElement (this s') = nativeElement (this s) ∧
         container (this s') = container (this s) ∧
         realm s' = realm s ∧ trace s' = trace s) ∧
  this (dispatch K event s).2 = this s ∧
  (∀ registry : gmap string (list Fn),
     registry !! ViewerEvent_value K = bucket K s →
     dispatch K event (set_callbacks (λ _, registry) s) =
     ((dispatch K event s).1, set_callbacks (λ _, registry) (dispatch K event s).2)).
Proof.
  split; [|split].
  - eexists. rewrite on_addCallback, addCallback_run. split; [done|].
    unfold bucket. simpl. rewrite lookup_insert_eq. repeat split; try done.
    intros key Hne. by rewrite lookup_insert_ne.
  - apply dispatch_this.
  - intros registry Hreg. rewrite !dispatch_executeCallbacks. unfold bind.
    replace (event_data_args event (set_callbacks (λ _, registry) s))
      with ((event_data_args event s).1, set_callbacks (λ _, registry) (event_data_args event s).2).
    2: { unfold event_data_args, lift_realm. simpl.
         by destruct (get_property (data event) "args" (realm s)). }
    pose proof (event_data_args_state event s) as Hs.
    destruct (event_data_args event s) as [[P|e] s']; simpl in *; subst s'; [|done].
    rewrite !executeCallbacks_run.
    replace (bucket K (set_callbacks (λ _, registry) s)) with (bucket K s)
      by (unfold bucket; simpl; by rewrite Hreg).
    apply forEach_call_set_callbacks.
Qed.

(** C6. On a new frame on which no registration call has used the key of
    K, dispatching K calls no host function, leaves the state as it was and
    returns without an error; and an inbound message whose name maps to no
    event kind (or that has no name at all) is dropped by the receiver in
    the same way. *)
Theorem unregistered_or_unknown_invokes_nothing
    options r0 fr r1 regs K event P unknown s :
  constructor options r0 = (Normal fr, r1) →
  registrations_for (ViewerEvent_value K) regs = [] →
  envelope_kind (heap (realm s)) (data unknown) = None →
  (∃ s1, register_all regs (instance fr r1) = (Normal tt, s1) ∧
         ∀ s2, this s2 = this s1 →
               executeCallbacks K P s2 = (Normal tt, s2) ∧
               ((event_data_args event s2).1 = Normal P →
                dispatch K event s2 = (Normal tt, s2))) ∧
  onMessage unknown s = (Normal tt, s).
Proof.
  intros Hc Hnone Hunknown. split.
  - destruct (registry_after_registrations _ _ _ _ regs Hc) as (s1 & Hrun & _ & _ & Hcb).
    exists s1. split; [done|]. intros s2 Hthis.
    assert (executeCallbacks K P s2 = (Normal tt, s2)) as Hex.
    { rewrite executeCallbacks_run. unfold bucket. by rewrite Hthis, Hcb, Hnone. }
    split; [done|]. intros HP. by rewrite (dispatch_run _ _ _ _ HP).
  - unfold onMessage, bind, gets. by rewrite Hunknown.
Qed.

End Properties.

(** * The claims on concrete inputs *)

(** [H] says that a closed computation returns a state [s]: run the
    computation and replace [s] by the state it ends in. *)
Ltac run_to_state H := vm_compute in H; injection H as <-.

Lemma example_constructor :
  constructor example_options example_realm = (Normal example_frame, example_constructed).
Proof. reflexivity. Qed.

(** Two different callbacks registered for [DragStarted], and one for
    another kind: the dispatch of [DragStarted] calls the two, in order. *)
Example drag_dispatch_trace :
  let s1 := (@register_all example_host
               [(DragStarted, 1); (UpdateRequirement, 3); (DragStarted, 2)] example_instance).2 in
  @dispatch example_host DragStarted drag_event s1
  = (Normal tt,
     {| this := this s1; realm := realm s1; trace := [(1, VNumber 7); (2, VNumber 7)] |}).
Proof. vm_compute. reflexivity. Qed.

(** Host function 0 throws: the callback registered after it is not
    called. *)
Example drag_dispatch_throwing :
  let s1 := (@register_all example_host
               [(DragStarted, 1); (DragStarted, 0); (DragStarted, 2)] example_instance).2 in
  @dispatch example_host DragStarted drag_event s1
  = (Throw (JsThrown (VNumber 7)),
     {| this := this s1; realm := realm s1; trace := [(1, VNumber 7); (0, VNumber 7)] |}).
Proof. vm_compute. reflexivity. Qed.

Lemma registered_once_invoked_once_witness :
  constructor example_options example_realm = (Normal example_frame, example_constructed) ∧
  data drag_event = VObject 0 ∧
  drag_envelope !! "args" = Some (VNumber 7) ∧
  ∃ s1, @on example_host DragStarted 1 example_instance = (Normal tt, s1) ∧
        ∀ s2, this s2 = this s1 →
              heap (realm s2) !! 0 = Some drag_envelope →
              @dispatch example_host DragStarted drag_event s2 =
              ((@invoke example_host 1 (VNumber 7) (realm s2)).1,
               {| this := this s2;
                  realm := (@invoke example_host 1 (VNumber 7) (realm s2)).2;
                  trace := trace s2 ++ [(1, VNumber 7)] |}).
Proof.
  split; [reflexivity|]. split; [reflexivity|]. split; [vm_compute; reflexivity|].
  apply (@registered_once_invoked_once example_host example_options example_realm
           example_frame example_constructed DragStarted 1 drag_event 0 drag_envelope
           (VNumber 7)); [reflexivity | reflexivity | vm_compute; reflexivity].
Defined.

(** C4 fails as stated: host function 0 throws when it is called, so after
    it has been registered twice for [DragStarted] one dispatch calls it
    once, not twice. *)
Lemma registered_twice_invoked_twice_counterexample :
  ¬ @registered_twice_invoked_twice_claim example_host
      example_options example_realm DragStarted 0 drag_event 0 drag_envelope (VNumber 7).
Proof.
  intros Hclaim.
  destruct (Hclaim example_frame example_constructed eq_refl eq_refl eq_refl)
    as (s1 & Hs1 & Hdispatch).
  run_to_state Hs1.
  specialize (Hdispatch _ eq_refl eq_refl).
  vm_compute in Hdispatch. discriminate Hdispatch.
Qed.

Lemma registered_twice_invoked_twice_witness :
  constructor example_options example_realm = (Normal example_frame, example_constructed) ∧
  data drag_event = VObject 0 ∧
  drag_envelope !! "args" = Some (VNumber 7) ∧
  ∃ s1, (@on example_host DragStarted 1;; @on example_host DragStarted 1) example_instance
        = (Normal tt, s1) ∧
        ∀ s2, this s2 = this s1 →
              heap (realm s2) !! 0 = Some drag_envelope →
              match @invoke example_host 1 (VNumber 7) (realm s2) with
              | (Normal _, rm1) =>
                  @dispatch example_host DragStarted drag_event s2 =
                  ((@invoke example_host 1 (VNumber 7) rm1).1,
                   {| this := this s2;
                      realm := (@invoke example_host 1 (VNumber 7) rm1).2;
                      trace := trace s2 ++ [(1, VNumber 7); (1, VNumber 7)] |})
              | (Throw e, rm1) =>
                  @dispatch example_host DragStarted drag_event s2 =
                  (Throw e,
                   {| this := this s2; realm := rm1;
                      trace := trace s2 ++ [(1, VNumber 7)] |})
              end.
Proof.
  split; [reflexivity|]. split; [reflexivity|]. split; [vm_compute; reflexivity|].
  apply (@registered_twice_invoked_twice example_host example_options example_realm
           example_frame example_constructed DragStarted 1 drag_event 0 drag_envelope
           (VNumber 7)); [reflexivity | reflexivity | vm_compute; reflexivity].
Defined.

(** C5 fails as stated: with the throwing host function 0 registered before
    host function 1, the dispatch calls 0 only. *)
Lemma dispatch_invokes_whole_bucket_counterexample :
  ¬ @dispatch_invokes_whole_bucket_claim example_host
      example_options example_realm [(DragStarted, 0); (DragStarted, 1)]
      DragStarted drag_event 0 drag_envelope (VNumber 7).
Proof.
  intros Hclaim.
  destruct (Hclaim example_frame example_constructed eq_refl eq_refl eq_refl)
    as (s1 & Hs1 & Hdispatch).
  run_to_state Hs1.
  specialize (Hdispatch _ eq_refl eq_refl).
  vm_compute in Hdispatch. discriminate Hdispatch.
Qed.

Lemma dispatch_in_registration_order_witness :
  constructor example_options example_realm = (Normal example_frame, example_constructed) ∧
  data drag_event = VObject 0 ∧
  drag_envelope !! "args" = Some (VNumber 7) ∧
  ∃ s1, @register_all example_host
          [(DragStarted, 1); (UpdateRequirement, 3); (DragStarted, 0); (DragStarted, 2)]
          example_instance
        = (Normal tt, s1) ∧
        default [] (@bucket example_host DragStarted s1)
        = @registrations_for example_host (@ViewerEvent_value example_host DragStarted)
            [(DragStarted, 1); (UpdateRequirement, 3); (DragStarted, 0); (DragStarted, 2)] ∧
        ∀ s2, this s2 = this s1 →
              heap (realm s2) !! 0 = Some drag_envelope →
              (@return_in_turn example_host
                 (default [] (@bucket example_host DragStarted s1)) (VNumber 7) (realm s2) →
               @dispatch example_host DragStarted drag_event s2 =
               (Normal tt,
                {| this := this s2;
                   realm := @realm_after example_host
                              (default [] (@bucket example_host DragStarted s1))
                              (VNumber 7) (realm s2);
                   trace := trace s2 ++
                            ((λ f, (f, VNumber 7)) <$>
                               default [] (@bucket example_host DragStarted s1)) |})) ∧
              (∀ before f after e,
                 default [] (@bucket example_host DragStarted s1) = before ++ f :: after →
                 @return_in_turn example_host before (VNumber 7) (realm s2) →
                 (@invoke example_host f (VNumber 7)
                    (@realm_after example_host before (VNumber 7) (realm s2))).1 = Throw e →
                 @dispatch example_host DragStarted drag_event s2 =
                 (Throw e,
                  {| this := this s2;
                     realm := (@invoke example_host f (VNumber 7)
                                 (@realm_after example_host before (VNumber 7) (realm s2))).2;
                     trace := trace s2 ++ ((λ f, (f, VNumber 7)) <$> (before ++ [f])) |})).
Proof.
  split; [reflexivity|]. split; [reflexivity|]. split; [vm_compute; reflexivity|].
  apply (@dispatch_in_registration_order example_host example_options example_realm
           example_frame example_constructed
           [(DragStarted, 1); (UpdateRequirement, 3); (DragStarted, 0); (DragStarted, 2)]
           DragStarted drag_event 0 drag_envelope (VNumber 7));
    [reflexivity | reflexivity | vm_compute; reflexivity].
Defined.

Lemma unregistered_or_unknown_invokes_nothing_witness :
  constructor example_options example_realm = (Normal example_frame, example_constructed) ∧
  @registrations_for example_host (@ViewerEvent_value example_host DragStarted)
    [(UpdateRequirement, 3)] = [] ∧
  @envelope_kind example_host (heap (realm example_instance)) (data resized_event) = None ∧
  (∃ s1, @register_all example_host [(UpdateRequirement, 3)] example_instance = (Normal tt, s1) ∧
         ∀ s2, this s2 = this s1 →
               @executeCallbacks example_host DragStarted (VNumber 7) s2 = (Normal tt, s2) ∧
               ((event_data_args drag_event s2).1 = Normal (VNumber 7) →
                @dispatch example_host DragStarted drag_event s2 = (Normal tt, s2))) ∧
  @onMessage example_host resized_event example_instance = (Normal tt, example_instance).
Proof.
  split; [reflexivity|]. split; [reflexivity|]. split; [reflexivity|].
  apply (@unregistered_or_unknown_invokes_nothing example_host example_options example_realm
           example_frame example_constructed [(UpdateRequirement, 3)]
           DragStarted drag_event (VNumber 7) resized_event example_instance);
    reflexivity.
Defined.

(** The receiver on a known name: the envelope at location 0 is dispatched
    to the callbacks of [DragStarted]. *)
Example onMessage_drag :
  let s1 := (@on example_host DragStarted 1 example_instance).2 in
  trace (@onMessage example_host drag_event s1).2 = [(1, VNumber 7)].
Proof. vm_compute. reflexivity. Qed.

Lemma sendConfigurationUpdated_envelope_witness :
  contentWindow (page (realm example_instance)) (nativeElement (this example_instance)) = Some 3 ∧
  heap (realm example_instance) !! 1
  = Some {[ "id" := VString "c1"; "_configuratorContext" := VObject 3 ]} ∧
  ∃ s' o args_props,
    sendConfigurationUpdated 1 example_instance = (Normal tt, s') ∧
    posted (page (realm s')) =
      posted (page (realm example_instance)) ++
      [{| target_window := 3;
          message := {| name := "elfsquad.configurationUpdated"; args := VObject o |};
          targetOrigin := "*" |}] ∧
    o ≠ 1 ∧
    heap (realm s') !! o = Some args_props ∧
    (is_Some (({[ "id" := VString "c1"; "_configuratorContext" := VObject 3 ]} : Obj)
                !! "_configuratorContext") →
     args_props !! "_configuratorContext" = None ∧
     ∀ key, key ≠ "_configuratorContext" →
            args_props !! key
            = ({[ "id" := VString "c1"; "_configuratorContext" := VObject 3 ]} : Obj) !! key) ∧
    (({[ "id" := VString "c1"; "_configuratorContext" := VObject 3 ]} : Obj)
       !! "_configuratorContext" = None →
     args_props = {[ "id" := VString "c1"; "_configuratorContext" := VObject 3 ]}).
Proof.
  split; [reflexivity|]. split; [reflexivity|].
  apply (sendConfigurationUpdated_envelope example_instance 1 3
           {[ "id" := VString "c1"; "_configuratorContext" := VObject 3 ]});
    reflexivity.
Defined.

(** What the two send methods post in the example. *)
Example sendConfigurationUpdated_example :
  let s' := (sendConfigurationUpdated 1 example_instance).2 in
  posted (page (realm s'))
  = [{| target_window := 3;
        message := {| name := "elfsquad.configurationUpdated"; args := VObject 6 |};
        targetOrigin := "*" |}] ∧
  map_to_list <$> heap (realm s') !! 6 = Some [("id", VString "c1")].
Proof. vm_compute. split; reflexivity. Qed.

(** C3 fails as stated: the step at location 4 has a field
    [_configuratorContext], and the [args] that [sendStepChanged] posts for
    it does not. *)
Lemma stepChanged_args_equal_step_counterexample :
  ¬ stepChanged_args_equal_step_claim example_instance 4.
Proof.
  intros Hclaim.
  destruct (Hclaim 3 {[ "title" := VString "Size"; "_configuratorContext" := VObject 3 ]}
              eq_refl eq_refl) as (s' & o & Hrun & Hposted & Hargs).
  run_to_state Hrun.
  vm_compute in Hposted. injection Hposted as <-.
  apply (f_equal (λ obj : option Obj, obj ≫= (.!! "_configuratorContext"))) in Hargs.
  vm_compute in Hargs. discriminate Hargs.
Qed.

Lemma sendStepChanged_envelope_witness :
  contentWindow (page (realm example_instance)) (nativeElement (this example_instance)) = Some 3 ∧
  heap (realm example_instance) !! 4
  = Some {[ "title" := VString "Size"; "_configuratorContext" := VObject 3 ]} ∧
  ∃ s' o args_props,
    sendStepChanged 4 example_instance = (Normal tt, s') ∧
    posted (page (realm s')) =
      posted (page (realm example_instance)) ++
      [{| target_window := 3;
          message := {| name := "elfsquad.stepChanged"; args := VObject o |};
          targetOrigin := "*" |}] ∧
    heap (realm example_instance) !! o = None ∧
    o ≠ 4 ∧
    heap (realm s') !! 4
    = Some {[ "title" := VString "Size"; "_configuratorContext" := VObject 3 ]} ∧
    heap (realm s') !! o = Some args_props ∧
    args_props
    = delete "_configuratorContext"
        ({[ "title" := VString "Size"; "_configuratorContext" := VObject 3 ]} : Obj) ∧
    args_props !! "_configuratorContext" = None ∧
    (∀ key, key ≠ "_configuratorContext" →
            args_props !! key
            = ({[ "title" := VString "Size"; "_configuratorContext" := VObject 3 ]} : Obj)
                !! key) ∧
    (({[ "title" := VString "Size"; "_configuratorContext" := VObject 3 ]} : Obj)
       !! "_configuratorContext" = None →
     args_props = {[ "title" := VString "Size"; "_configuratorContext" := VObject 3 ]}).
Proof.
  split; [vm_compute; reflexivity|]. split; [vm_compute; reflexivity|].
  apply (sendStepChanged_envelope example_instance 4 3
           {[ "title" := VString "Size"; "_configuratorContext" := VObject 3 ]});
    vm_compute; reflexivity.
Defined.

Lemma send_args_fresh_copy_without_context_witness :
  contentWindow (page (realm example_instance)) (nativeElement (this example_instance)) = Some 3 ∧
  heap (realm example_instance) !! 4
  = Some {[ "title" := VString "Size"; "_configuratorContext" := VObject 3 ]} ∧
  posts_sanitized_copy sendConfigurationUpdated "elfsquad.configurationUpdated"
    example_instance 4 3 {[ "title" := VString "Size"; "_configuratorContext" := VObject 3 ]} ∧
  posts_sanitized_copy sendStepChanged "elfsquad.stepChanged"
    example_instance 4 3 {[ "title" := VString "Size"; "_configuratorContext" := VObject 3 ]}.
Proof.
  split; [vm_compute; reflexivity|]. split; [vm_compute; reflexivity|].
  apply (send_args_fresh_copy_without_context example_instance 4 3
           {[ "title" := VString "Size"; "_configuratorContext" := VObject 3 ]});
    vm_compute; reflexivity.
Defined.

(** The step at location 4 carries a [_configuratorContext]; what is posted
    for it does not. *)
Example sendStepChanged_example :
  let s' := (sendStepChanged 4 example_instance).2 in
  posted (page (realm s'))
  = [{| target_window := 3;
        message := {| name := "elfsquad.stepChanged"; args := VObject 6 |};
        targetOrigin := "*" |}] ∧
  map_to_list <$> heap (realm s') !! 6 = Some [("title", VString "Size")].
Proof. vm_compute. split; reflexivity. Qed.

Lemma send_without_content_window_witness :
  contentWindow (page (realm detached_instance)) (nativeElement (this detached_instance)) = None ∧
  ∃ e, NoChannelError e ∧
       sendConfigurationUpdated 1 detached_instance = (Throw e, detached_instance) ∧
       sendStepChanged 1 detached_instance = (Throw e, detached_instance).
Proof.
  split; [vm_compute; reflexivity|].
  apply (send_without_content_window detached_instance 1).
  vm_compute; reflexivity.
Defined.

(** The detached instance is what the constructor returns for a container
    that is not in the document, and a registration made before the failing
    send is still there after it. *)
Example detached_send_keeps_registry :
  (constructor detached_options example_realm).1 = Normal detached_frame ∧
  let s1 := (@on example_host DragStarted 1 detached_instance).2 in
  sendStepChanged 2 s1
  = (Throw (JsError "Native element does not have a content window"), s1).
Proof. split; vm_compute; reflexivity. Qed.

Lemma constructor_container_unresolved_witness :
  (options_container {| options_container := Selector "#missing"; options_url := "/v" |}
   = Selector "#missing" ∧
   (querySelector (page example_realm) "#missing" = QNull ∨
    ∃ element, querySelector (page example_realm) "#missing" = QElement element ∧
               instanceof_HTMLElement element = false) ∧
   ∃ e, constructor {| options_container := Selector "#missing"; options_url := "/v" |}
          example_realm = (Throw e, example_realm) ∧
        ContainerResolutionError e ∧
        (querySelector (page example_realm) "#missing" = QNull →
         e = JsError "Container not found") ∧
        (querySelector (page example_realm) "#missing" ≠ QNull →
         e = JsError "Container must be an HTMLElement")) ∧
  (options_container {| options_container := Selector "#logo"; options_url := "/v" |}
   = Selector "#logo" ∧
   (querySelector (page example_realm) "#logo" = QNull ∨
    ∃ element, querySelector (page example_realm) "#logo" = QElement element ∧
               instanceof_HTMLElement element = false) ∧
   ∃ e, constructor {| options_container := Selector "#logo"; options_url := "/v" |}
          example_realm = (Throw e, example_realm) ∧
        ContainerResolutionError e ∧
        (querySelector (page example_realm) "#logo" = QNull →
         e = JsError "Container not found") ∧
        (querySelector (page example_realm) "#logo" ≠ QNull →
         e = JsError "Container must be an HTMLElement")).
Proof.
  assert (querySelector (page example_realm) "#missing" = QNull) as Hmissing
    by (vm_compute; reflexivity).
  assert (∃ element, querySelector (page example_realm) "#logo" = QElement element ∧
                     instanceof_HTMLElement element = false) as Hlogo
    by (eexists; split; vm_compute; reflexivity).
  split; (split; [reflexivity|]).
  - split; [by left|].
    apply (constructor_container_unresolved
             {| options_container := Selector "#missing"; options_url := "/v" |}
             "#missing" example_realm eq_refl (or_introl Hmissing)).
  - split; [by right|].
    apply (constructor_container_unresolved
             {| options_container := Selector "#logo"; options_url := "/v" |}
             "#logo" example_realm eq_refl (or_intror Hlogo)).
Defined.

(** The two failing constructions, and the one on a string that is not a
    selector (which is not a [ContainerResolutionError]). *)
Example constructor_errors :
  (constructor {| options_container := Selector "#missing"; options_url := "/v" |}
     example_realm).1 = Throw (JsError "Container not found") ∧
  (constructor {| options_container := Selector "#logo"; options_url := "/v" |}
     example_realm).1 = Throw (JsError "Container must be an HTMLElement") ∧
  (constructor {| options_container := Selector "["; options_url := "/v" |}
     example_realm).1 = Throw (DOMException "SyntaxError").
Proof. repeat split; vm_compute; reflexivity. Qed.

(** Registration on the example: one bucket grows, the others stay. *)
Example registration_example :
  let s1 := (@register_all example_host
               [(DragStarted, 1); (UpdateRequirement, 3); (DragStarted, 1)] example_instance).2 in
  map_to_list (callbacks (this s1))
  ≡ₚ [("elfsquad.dragStarted", [1; 1]); ("elfsquad.updateRequirement", [3])].
Proof. vm_compute. by constructor. Qed.


(** * Further properties of the class *)

(** ** Construction *)

(** X1. When the container is given as an element, or as a selector that
    finds an [HTMLElement], the constructor returns an instance with an empty
    registry whose container is that element and whose [nativeElement] is the
    iframe it created: the iframe has [src = options.url] and the six style
    properties of [render], and it is the last child of the container, after
    the children the container had.  No object of the heap is touched and no
    message is posted. *)
Theorem constructor_mounts_iframe options r0 c :
  match options_container options with
  | Handle element => c = element
  | Selector selector =>
      querySelector (page r0) selector = QElement c ∧ instanceof_HTMLElement c = true
  end →
  ∃ r1,
    constructor options r0 =
      (Normal {| nativeElement := next_node (page r0); container := c; callbacks := ∅ |}, r1) ∧
    iframes (page r1) !! next_node (page r0) =
      Some {| src := options_url options; style := iframe_style |} ∧
    children (page r1) !! node c =
      Some (default [] (children (page r0) !! node c) ++ [next_node (page r0)]) ∧
    (∀ parent, parent ≠ node c → children (page r1) !! parent = children (page r0) !! parent) ∧
    (∀ n, n ≠ next_node (page r0) → iframes (page r1) !! n = iframes (page r0) !! n) ∧
    heap r1 = heap r0 ∧
    posted (page r1) = posted (page r0).
Proof.
  intros Hopt.
  assert (getContainer options r0 = (Normal c, r0)) as Hget.
  { unfold getContainer, bind, gets.
    destruct (options_container options) as [selector|element].
    - destruct Hopt as [-> ->]. done.
    - by subst. }
  eexists. split.
  { unfold constructor, EventHandler_super, bind at 1 2, ret at 1. cbv beta.
    rewrite Hget. reflexivity. }
  destruct r0 as [h [q n ifr ch co ml po]]. simpl.
  repeat split.
  - rewrite !lookup_alter_eq, lookup_insert_eq. simpl. do 2 f_equal.
  - by rewrite lookup_insert_eq.
  - intros parent Hne. by rewrite lookup_insert_ne.
  - intros m Hne. by rewrite !lookup_alter_ne, lookup_insert_ne.
Qed.

Lemma constructor_mounts_iframe_witness :
  (match options_container example_options with
   | Handle element => {| node := 1; instanceof_HTMLElement := true |} = element
   | Selector selector =>
       querySelector (page example_realm) selector
       = QElement {| node := 1; instanceof_HTMLElement := true |} ∧
       instanceof_HTMLElement {| node := 1; instanceof_HTMLElement := true |} = true
   end) ∧
  ∃ r1,
    constructor example_options example_realm =
      (Normal {| nativeElement := next_node (page example_realm);
                 container := {| node := 1; instanceof_HTMLElement := true |};
                 callbacks := ∅ |}, r1) ∧
    iframes (page r1) !! next_node (page example_realm) =
      Some {| src := options_url example_options; style := iframe_style |} ∧
    children (page r1) !! 1 =
      Some (default [] (children (page example_realm) !! 1) ++ [next_node (page example_realm)]) ∧
    (∀ parent, parent ≠ 1 →
               children (page r1) !! parent = children (page example_realm) !! parent) ∧
    (∀ n, n ≠ next_node (page example_realm) →
          iframes (page r1) !! n = iframes (page example_realm) !! n) ∧
    heap r1 = heap example_realm ∧
    posted (page r1) = posted (page example_realm).
Proof.
  split; [split; reflexivity|].
  apply (constructor_mounts_iframe example_options example_realm
           {| node := 1; instanceof_HTMLElement := true |}).
  split; reflexivity.
Defined.

(** X2. The constructor does not look at the content window of the iframe:
    given an element as container, it returns an instance whether or not the
    element is attached to the document.  When it is attached, the iframe
    has a content window afterwards; when it is not, the iframe has none,
    and the missing content window only shows when a send method is called,
    which then throws and changes nothing. *)
Theorem constructor_ignores_content_window options element r0 payload :
  options_container options = Handle element →
  next_node (page r0) ∉ connected (page r0) →
  ∃ fr r1,
    constructor options r0 = (Normal fr, r1) ∧
    (node element ∈ connected (page r0) →
     contentWindow (page r1) (nativeElement fr) = Some (nativeElement fr)) ∧
    (node element ∉ connected (page r0) →
     contentWindow (page r1) (nativeElement fr) = None ∧
     sendConfigurationUpdated payload (instance fr r1)
     = (Throw (JsError "Native element does not have a content window"), instance fr r1) ∧
     sendStepChanged payload (instance fr r1)
     = (Throw (JsError "Native element does not have a content window"), instance fr r1)).
Proof.
  intros Hopt Hnew.
  assert (getContainer options r0 = (Normal element, r0)) as Hget
    by (unfold getContainer; by rewrite Hopt).
  eexists _, _. split.
  { unfold constructor, EventHandler_super, bind at 1 2, ret at 1. cbv beta.
    rewrite Hget. reflexivity. }
  destruct r0 as [h [q n ifr ch co ml po]]. simpl in *.
  split.
  - intros Hin. unfold contentWindow. simpl.
    rewrite (decide_True _ _ Hin). rewrite decide_True; [done|set_solver].
  - intros Hout.
    match goal with |- contentWindow ?d ?i = None ∧ _ =>
      assert (contentWindow d i = None) as Hw end.
    { unfold contentWindow. simpl. rewrite (decide_False _ _ Hout). by rewrite decide_False. }
    split; [exact Hw|]. split; by apply sendMessage_no_window.
Qed.

Lemma constructor_ignores_content_window_witness :
  options_container detached_options = Handle {| node := 9; instanceof_HTMLElement := true |} ∧
  (next_node (page example_realm) ∉ connected (page example_realm)) ∧
  ∃ fr r1,
    constructor detached_options example_realm = (Normal fr, r1) ∧
    (node {| node := 9; instanceof_HTMLElement := true |} ∈ connected (page example_realm) →
     contentWindow (page r1) (nativeElement fr) = Some (nativeElement fr)) ∧
    (node {| node := 9; instanceof_HTMLElement := true |} ∉ connected (page example_realm) →
     contentWindow (page r1) (nativeElement fr) = None ∧
     sendConfigurationUpdated 1 (instance fr r1)
     = (Throw (JsError "Native element does not have a content window"), instance fr r1) ∧
     sendStepChanged 1 (instance fr r1)
     = (Throw (JsError "Native element does not have a content window"), instance fr r1)).
Proof.
  assert (next_node (page example_realm) ∉ connected (page example_realm)) as Hnew
    by (apply (bool_decide_unpack _); vm_compute; exact I).
  split; [reflexivity|]. split; [exact Hnew|].
  apply (constructor_ignores_content_window detached_options
           {| node := 9; instanceof_HTMLElement := true |} example_realm 1 eq_refl Hnew).
Defined.

(** ** Outbound messages *)

Lemma sendMessage_this_trace name data s :
  this (sendMessage name data s).2 = this s ∧
  trace (sendMessage name data s).2 = trace s.
Proof.
  unfold sendMessage, bind, gets, lift_realm. cbv beta iota.
  destruct (contentWindow (page (realm s)) (nativeElement (this s))) eqn:E;
    cbv beta iota; [rewrite E|done].
  unfold modify. by destruct (removeMethods data (realm s)) as [[v|e] rm].
Qed.

(** X3. A send that finds a content window changes the heap by exactly one
    new object and the posted messages by exactly one message appended after
    the earlier ones; it changes no existing object (the payload and what it
    refers to included), calls no host function, and leaves the instance and
    the rest of the page as they were.  This holds for both send methods. *)
Theorem send_allocates_and_posts_only s payload w props :
  contentWindow (page (realm s)) (nativeElement (this s)) = Some w →
  heap (realm s) !! payload = Some props →
  allocates_and_posts_only sendConfigurationUpdated s payload ∧
  allocates_and_posts_only sendStepChanged s payload.
Proof.
  intros Hw Hdata.
  assert (∀ name, allocates_and_posts_only (sendMessage name) s payload) as Hany.
  { intros name. eexists _, (fresh (dom (heap (realm s)))).
    split; [by apply (sendMessage_run name _ _ _ _ Hw Hdata)|]. simpl.
    repeat split; try done.
    - apply is_fresh.
    - by rewrite dom_insert_L.
    - intros l Hne. by rewrite lookup_insert_ne.
    - rewrite length_app. simpl. lia.
    - by rewrite take_app_length. }
  split; apply Hany.
Qed.

Lemma send_allocates_and_posts_only_witness :
  contentWindow (page (realm example_instance)) (nativeElement (this example_instance)) = Some 3 ∧
  heap (realm example_instance) !! 1
  = Some {[ "id" := VString "c1"; "_configuratorContext" := VObject 3 ]} ∧
  allocates_and_posts_only sendConfigurationUpdated example_instance 1 ∧
  allocates_and_posts_only sendStepChanged example_instance 1.
Proof.
  split; [vm_compute; reflexivity|]. split; [vm_compute; reflexivity|].
  apply (send_allocates_and_posts_only example_instance 1 3
           {[ "id" := VString "c1"; "_configuratorContext" := VObject 3 ]});
    vm_compute; reflexivity.
Defined.

(** X4. The sanitizing is shallow.  When a field of the payload other than
    [_configuratorContext] refers to an object, the [args] that is posted
    refers to the very same object under that field, and that object is left
    as it was: a [_configuratorContext] inside it is still there. *)
Theorem send_does_not_sanitize_nested s payload w props key inner inner_props :
  contentWindow (page (realm s)) (nativeElement (this s)) = Some w →
  heap (realm s) !! payload = Some props →
  key ≠ "_configuratorContext" →
  props !! key = Some (VObject inner) →
  heap (realm s) !! inner = Some inner_props →
  ∃ s' o args_props,
    sendConfigurationUpdated payload s = (Normal tt, s') ∧
    posted (page (realm s')) =
      posted (page (realm s)) ++
      [{| target_window := w;
          message := {| name := "elfsquad.configurationUpdated"; args := VObject o |};
          targetOrigin := "*" |}] ∧
    heap (realm s') !! o = Some args_props ∧
    args_props !! key = Some (VObject inner) ∧
    heap (realm s') !! inner = Some inner_props.
Proof.
  intros Hw Hdata Hkey Hfield Hinner.
  destruct (sendMessage_envelope "elfsquad.configurationUpdated" _ _ _ _ Hw Hdata)
    as (s' & o & Hrun & Hposted & Hfresh & Ho & _).
  exists s', o, (delete "_configuratorContext" props).
  repeat split; try done.
  - by rewrite lookup_delete_ne.
  - unfold sendConfigurationUpdated in Hrun.
    rewrite (sendMessage_run _ _ _ _ _ Hw Hdata) in Hrun. injection Hrun as <-. simpl.
    rewrite lookup_insert_ne; [done|].
    intros E. rewrite <- E in Hinner.
    assert (heap (realm s) !! fresh (dom (heap (realm s))) = None)
      by apply not_elem_of_dom, is_fresh.
    congruence.
Qed.

Lemma send_does_not_sanitize_nested_witness :
  contentWindow (page (realm nested_instance)) (nativeElement (this nested_instance)) = Some 3 ∧
  heap (realm nested_instance) !! 1
  = Some {[ "steps" := VObject 2; "_configuratorContext" := VObject 3 ]} ∧
  "steps" ≠ "_configuratorContext" ∧
  ({[ "steps" := VObject 2; "_configuratorContext" := VObject 3 ]} : Obj) !! "steps"
  = Some (VObject 2) ∧
  heap (realm nested_instance) !! 2
  = Some {[ "title" := VString "Colour"; "_configuratorContext" := VObject 3 ]} ∧
  ∃ s' o args_props,
    sendConfigurationUpdated 1 nested_instance = (Normal tt, s') ∧
    posted (page (realm s')) =
      posted (page (realm nested_instance)) ++
      [{| target_window := 3;
          message := {| name := "elfsquad.configurationUpdated"; args := VObject o |};
          targetOrigin := "*" |}] ∧
    heap (realm s') !! o = Some args_props ∧
    args_props !! "steps" = Some (VObject 2) ∧
    heap (realm s') !! 2
    = Some {[ "title" := VString "Colour"; "_configuratorContext" := VObject 3 ]}.
Proof.
  assert ("steps" ≠ "_configuratorContext") as Hne by discriminate.
  split; [vm_compute; reflexivity|]. split; [vm_compute; reflexivity|].
  split; [exact Hne|]. split; [vm_compute; reflexivity|]. split; [vm_compute; reflexivity|].
  apply (send_does_not_sanitize_nested nested_instance 1 3
           {[ "steps" := VObject 2; "_configuratorContext" := VObject 3 ]}
           "steps" 2 {[ "title" := VString "Colour"; "_configuratorContext" := VObject 3 ]});
    first [exact Hne | vm_compute; reflexivity].
Defined.

(** X5. Two sends in a row post two envelopes, in the order of the calls,
    after the messages posted before; each gets an [args] object of its own
    (the two are different objects, also when the same payload is sent
    twice), and each [args] holds the properties of its payload without
    [_configuratorContext]. *)
Theorem two_sends_post_in_order s w cfg cfg_props step step_props :
  contentWindow (page (realm s)) (nativeElement (this s)) = Some w →
  heap (realm s) !! cfg = Some cfg_props →
  heap (realm s) !! step = Some step_props →
  ∃ s' o1 o2,
    (sendConfigurationUpdated cfg;; sendStepChanged step) s = (Normal tt, s') ∧
    posted (page (realm s')) =
      posted (page (realm s)) ++
      [{| target_window := w;
          message := {| name := "elfsquad.configurationUpdated"; args := VObject o1 |};
          targetOrigin := "*" |};
       {| target_window := w;
          message := {| name := "elfsquad.stepChanged"; args := VObject o2 |};
          targetOrigin := "*" |}] ∧
    o1 ≠ o2 ∧
    heap (realm s') !! o1 = Some (delete "_configuratorContext" cfg_props) ∧
    heap (realm s') !! o2 = Some (delete "_configuratorContext" step_props).
Proof.
  intros Hw Hcfg Hstep.
  assert (heap (realm s) !! fresh (dom (heap (realm s))) = None) as Hfresh
    by apply not_elem_of_dom, is_fresh.
  pose proof (sendMessage_run "elfsquad.configurationUpdated" _ _ _ _ Hw Hcfg) as Hrun1.
  match type of Hrun1 with _ = (_, ?st) => set (s1 := st) in * end.
  assert (contentWindow (page (realm s1)) (nativeElement (this s1)) = Some w) as Hw1 by exact Hw.
  assert (heap (realm s1) !! step = Some step_props) as Hstep1.
  { simpl. rewrite lookup_insert_ne; [done|]. intros E. congruence. }
  pose proof (sendMessage_run "elfsquad.stepChanged" _ _ _ _ Hw1 Hstep1) as Hrun2.
  assert (fresh (dom (heap (realm s))) ≠ fresh (dom (heap (realm s1)))) as Hne.
  { intros E. apply (is_fresh (dom (heap (realm s1)))). rewrite <- E. simpl.
    rewrite dom_insert_L. set_solver. }
  eexists _, (fresh (dom (heap (realm s)))), (fresh (dom (heap (realm s1)))).
  split.
  { unfold sendConfigurationUpdated, sendStepChanged.
    rewrite (bind_normal _ _ _ _ _ Hrun1). exact Hrun2. }
  simpl. repeat split.
  - by rewrite <- app_assoc.
  - exact Hne.
  - rewrite lookup_insert_ne by (intros E; by apply Hne). by rewrite lookup_insert_eq.
  - by rewrite lookup_insert_eq.
Qed.

Lemma two_sends_post_in_order_witness :
  contentWindow (page (realm example_instance)) (nativeElement (this example_instance)) = Some 3 ∧
  heap (realm example_instance) !! 1
  = Some {[ "id" := VString "c1"; "_configuratorContext" := VObject 3 ]} ∧
  heap (realm example_instance) !! 2 = Some {[ "title" := VString "Colour" ]} ∧
  ∃ s' o1 o2,
    (sendConfigurationUpdated 1;; sendStepChanged 2) example_instance = (Normal tt, s') ∧
    posted (page (realm s')) =
      posted (page (realm example_instance)) ++
      [{| target_window := 3;
          message := {| name := "elfsquad.configurationUpdated"; args := VObject o1 |};
          targetOrigin := "*" |};
       {| target_window := 3;
          message := {| name := "elfsquad.stepChanged"; args := VObject o2 |};
          targetOrigin := "*" |}] ∧
    o1 ≠ o2 ∧
    heap (realm s') !! o1
    = Some (delete "_configuratorContext"
              ({[ "id" := VString "c1"; "_configuratorContext" := VObject 3 ]} : Obj)) ∧
    heap (realm s') !! o2
    = Some (delete "_configuratorContext" ({[ "title" := VString "Colour" ]} : Obj)).
Proof.
  split; [vm_compute; reflexivity|]. split; [vm_compute; reflexivity|].
  split; [vm_compute; reflexivity|].
  apply (two_sends_post_in_order example_instance 3
           1 {[ "id" := VString "c1"; "_configuratorContext" := VObject 3 ]}
           2 {[ "title" := VString "Colour" ]});
    vm_compute; reflexivity.
Defined.

(** X6. [removeMethods] is idempotent up to the copy: applied to the object
    it returned, it returns another new object with the same properties. *)
Theorem removeMethods_idempotent data r props :
  heap r !! data = Some props →
  ∃ o1 r1 o2 r2,
    removeMethods data r = (Normal (VObject o1), r1) ∧
    removeMethods o1 r1 = (Normal (VObject o2), r2) ∧
    o1 ≠ o2 ∧
    heap r2 !! o1 = Some (delete "_configuratorContext" props) ∧
    heap r2 !! o2 = Some (delete "_configuratorContext" props) ∧
    heap r2 !! data = Some props.
Proof.
  intros Hdata.
  assert (heap r !! fresh (dom (heap r)) = None) as Hfresh
    by apply not_elem_of_dom, is_fresh.
  pose proof (removeMethods_run _ _ _ Hdata) as Hrun1.
  match type of Hrun1 with _ = (_, ?st) => set (r1 := st) in * end.
  assert (heap r1 !! fresh (dom (heap r)) = Some (delete "_configuratorContext" props)) as Ho1
    by (simpl; by rewrite lookup_insert_eq).
  pose proof (removeMethods_run _ _ _ Ho1) as Hrun2.
  assert (fresh (dom (heap r)) ≠ fresh (dom (heap r1))) as Hne.
  { intros E. apply (is_fresh (dom (heap r1))). rewrite <- E. simpl.
    rewrite dom_insert_L. set_solver. }
  eexists _, _, _, _. split; [exact Hrun1|]. split; [exact Hrun2|].
  split; [exact Hne|]. simpl. repeat split.
  - rewrite lookup_insert_ne by (intros E; by apply Hne). by rewrite lookup_insert_eq.
  - rewrite lookup_insert_eq. f_equal. apply delete_id, lookup_delete_eq.
  - assert (fresh (dom (heap r)) ≠ data) as Hne1 by (intros E; congruence).
    assert (fresh (dom (heap r1)) ≠ data) as Hne2.
    { intros E. apply (is_fresh (dom (heap r1))). rewrite E. simpl.
      rewrite dom_insert_L. apply elem_of_union_r, elem_of_dom. by eexists. }
    by rewrite !lookup_insert_ne.
Qed.

Lemma removeMethods_idempotent_witness :
  heap example_realm !! 1
  = Some {[ "id" := VString "c1"; "_configuratorContext" := VObject 3 ]} ∧
  ∃ o1 r1 o2 r2,
    removeMethods 1 example_realm = (Normal (VObject o1), r1) ∧
    removeMethods o1 r1 = (Normal (VObject o2), r2) ∧
    o1 ≠ o2 ∧
    heap r2 !! o1
    = Some (delete "_configuratorContext"
              ({[ "id" := VString "c1"; "_configuratorContext" := VObject 3 ]} : Obj)) ∧
    heap r2 !! o2
    = Some (delete "_configuratorContext"
              ({[ "id" := VString "c1"; "_configuratorContext" := VObject 3 ]} : Obj)) ∧
    heap r2 !! 1 = Some {[ "id" := VString "c1"; "_configuratorContext" := VObject 3 ]}.
Proof.
  split; [vm_compute; reflexivity|].
  apply (removeMethods_idempotent 1 example_realm
           {[ "id" := VString "c1"; "_configuratorContext" := VObject 3 ]}).
  vm_compute; reflexivity.
Defined.

(** ** Registration and dispatch *)

Section FurtherProperties.
Context `{!Host}.

(** X7. What a protected dispatch method does with the [data] of the event.
    On [undefined] or [null] it throws a [TypeError] before it looks at the
    registry: no callback is called and nothing changes.  On an object it
    passes the value of the field [args] to the callbacks, and [undefined]
    when the object has no such field; on any other primitive it passes
    [undefined]. *)
Theorem dispatch_event_data_shapes K event s :
  (data event = VUndefined ∨ data event = VNull →
   dispatch K event s = (Throw TypeError, s)) ∧
  (∀ l props, data event = VObject l → heap (realm s) !! l = Some props →
              dispatch K event s = executeCallbacks K (default VUndefined (props !! "args")) s) ∧
  ((∃ b, data event = VBool b) ∨ (∃ n, data event = VNumber n) ∨
   (∃ str, data event = VString str) →
   dispatch K event s = executeCallbacks K VUndefined s).
Proof.
  rewrite dispatch_executeCallbacks. unfold bind, event_data_args, lift_realm.
  destruct s as [fr rm t]. simpl. repeat split.
  - by intros [-> | ->].
  - intros l props -> Hl. simpl. unfold gets, properties. by rewrite Hl.
  - by intros [[b ->] | [[n ->] | [str ->]]].
Qed.

(** X8. When the members of the enum have distinct values, a dispatch of K
    on a frame calls only callbacks that were registered for K, each with
    the payload of the event: a callback registered for another kind only is
    not called. *)
Theorem dispatch_calls_only_its_kind options r0 fr r1 regs K event P :
  Inj (=) (=) ViewerEvent_value →
  constructor options r0 = (Normal fr, r1) →
  ∃ s1, register_all regs (instance fr r1) = (Normal tt, s1) ∧
        ∀ s2, this s2 = this s1 →
              (event_data_args event s2).1 = Normal P →
              ∃ called, trace (dispatch K event s2).2 = trace s2 ++ called ∧
                        ∀ f v, (f, v) ∈ called → v = P ∧ (K, f) ∈ regs.
Proof.
  intros Hinj Hc.
  destruct (registry_after_registrations _ _ _ _ regs Hc) as (s1 & Hrun & _ & _ & Hcb).
  exists s1. split; [done|]. intros s2 Hthis HP.
  rewrite (dispatch_run _ _ _ _ HP), executeCallbacks_run.
  destruct (forEach_call_run (default [] (bucket K s2)) P s2) as (n & _ & _ & Htr & _).
  eexists. split; [exact Htr|].
  intros f v Hin. apply list_elem_of_fmap in Hin as (g & [= -> ->] & Hg).
  split; [done|]. apply elem_of_take in Hg as (i & Hg & _).
  apply list_elem_of_lookup_2 in Hg.
  assert (default [] (bucket K s2) = registrations_for (ViewerEvent_value K) regs) as Hb.
  { unfold bucket. rewrite Hthis, Hcb. by destruct (registrations_for _ regs). }
  rewrite Hb, (registrations_for_kind _ _ Hinj) in Hg.
  apply list_elem_of_fmap in Hg as ([K' g'] & -> & Hg).
  apply list_elem_of_filter in Hg as [HK Hg]. simpl in *. by subst.
Qed.

(** X9. Registrations under different keys commute: the two orders of two
    [on<Event>] calls for kinds with different values leave the same
    state. *)
Theorem registrations_of_different_kinds_commute K1 C1 K2 C2 s :
  ViewerEvent_value K1 ≠ ViewerEvent_value K2 →
  (on K1 C1;; on K2 C2) s = (on K2 C2;; on K1 C1) s.
Proof.
  intros Hne. rewrite !on_addCallback.
  rewrite (bind_normal _ _ _ _ _ (addCallback_run K1 C1 s)).
  rewrite (bind_normal _ _ _ _ _ (addCallback_run K2 C2 s)).
  rewrite !addCallback_run. f_equal.
  destruct s as [[n c cbs] rm t]. unfold set_callbacks, bucket. simpl.
  rewrite !lookup_insert_ne by done. do 2 f_equal.
  by apply insert_insert_ne.
Qed.

(** X10. A dispatch consumes nothing: when no callback of the bucket of K
    throws, dispatching K twice calls the whole bucket twice, in order, and
    leaves the instance as it was. *)
Theorem callbacks_stay_registered K P s fns :
  bucket K s = Some fns →
  (∀ f rm, f ∈ fns → (invoke f P rm).1 = Normal tt) →
  ∃ s', (executeCallbacks K P;; executeCallbacks K P) s = (Normal tt, s') ∧
        trace s' = trace s ++ ((λ f, (f, P)) <$> fns) ++ ((λ f, (f, P)) <$> fns) ∧
        this s' = this s.
Proof.
  intros Hb Hok.
  pose proof (forEach_call_all fns P s Hok) as [Hn1 Htr1].
  pose proof (forEach_call_run fns P s) as (n1 & _ & Hthis1 & _).
  pose proof (executeCallbacks_run K P s) as Hrun1. rewrite Hb in Hrun1. simpl in Hrun1.
  destruct (forEach fns (λ callback, call callback P) s) as [c1 s1] eqn:E1.
  simpl in *. subst c1.
  assert (bucket K s1 = Some fns) as Hb1 by (unfold bucket; by rewrite Hthis1).
  pose proof (forEach_call_all fns P s1 Hok) as [Hn2 Htr2].
  pose proof (forEach_call_run fns P s1) as (n2 & _ & Hthis2 & _).
  pose proof (executeCallbacks_run K P s1) as Hrun2. rewrite Hb1 in Hrun2. simpl in Hrun2.
  destruct (forEach fns (λ callback, call callback P) s1) as [c2 s2] eqn:E2.
  simpl in *. subst c2.
  exists s2. split; [by rewrite (bind_normal _ _ _ _ _ Hrun1)|].
  split; [by rewrite Htr2, Htr1, <- app_assoc | congruence].
Qed.

Lemma perform_this c s :
  nativeElement (this (perform c s).2) = nativeElement (this s) ∧
  container (this (perform c s).2) = container (this s) ∧
  ∀ key, callbacks (this (perform c s).2) !! key =
         match c with
         | CallOn K callback =>
             if decide (ViewerEvent_value K = key)
             then Some (default [] (callbacks (this s) !! key) ++ [callback])
             else callbacks (this s) !! key
         | _ => callbacks (this s) !! key
         end.
Proof.
  destruct c as [K f|K event|cfg|step|]; simpl.
  - rewrite on_addCallback, addCallback_run. simpl. repeat split.
    intros key. unfold bucket. case_decide as Hk.
    + subst key. by rewrite lookup_insert_eq.
    + by rewrite lookup_insert_ne.
  - by rewrite dispatch_this.
  - unfold sendConfigurationUpdated.
    by destruct (sendMessage_this_trace "elfsquad.configurationUpdated" cfg s) as [-> _].
  - unfold sendStepChanged.
    by destruct (sendMessage_this_trace "elfsquad.stepChanged" step s) as [-> _].
  - done.
Qed.

(** X11. The iframe and the container of an instance are fixed: after any
    sequence of registrations, dispatches and sends, throwing ones included,
    [getNativeElement] still returns the iframe it returned before, the
    container is the same, and [getNativeElement] itself changes nothing. *)
Theorem native_element_is_stable calls s :
  getNativeElement (perform_all calls s)
  = (Normal (nativeElement (this s)), perform_all calls s) ∧
  container (this (perform_all calls s)) = container (this s).
Proof.
  unfold getNativeElement, gets.
  revert s. induction calls as [|c calls IH]; intros s; [done|].
  simpl. destruct (perform_this c s) as (Hn & Hc & _).
  destruct (IH (perform c s).2) as [IH1 IH2].
  rewrite IH2, Hc. split; [|done].
  rewrite <- Hn. exact IH1.
Qed.

(** X12. Only registration calls change the registry, and they only append.
    After any sequence of registrations, dispatches and sends, throwing ones
    included, the bucket under each key is the bucket it was followed by the
    callbacks that the registration calls of the sequence registered under
    that key, in the order of the calls; a key that had no bucket and was
    not registered has none. *)
Theorem registry_after_any_calls calls s key :
  callbacks (this (perform_all calls s)) !! key =
  match callbacks (this s) !! key, registrations_for key (registrations_of calls) with
  | None, [] => None
  | o, l => Some (default [] o ++ l)
  end.
Proof.
  revert s. induction calls as [|c calls IH]; intros s.
  - simpl. destruct (callbacks (this s) !! key); simpl; by rewrite ?app_nil_r.
  - simpl. rewrite IH. destruct (perform_this c s) as (_ & _ & ->).
    unfold registrations_of, registrations_for.
    destruct c as [K f|K event|cfg|step|]; simpl; try done.
    rewrite filter_cons. simpl. case_decide as Hk; simpl.
    + rewrite <- app_assoc. simpl. by destruct (callbacks (this s) !! key).
    + done.
Qed.

End FurtherProperties.

Lemma example_value_inj : Inj (=) (=) example_value.
Proof. intros [] [] E; try reflexivity; vm_compute in E; discriminate E. Qed.

Lemma dispatch_calls_only_its_kind_witness :
  Inj (=) (=) (@ViewerEvent_value example_host) ∧
  constructor example_options example_realm = (Normal example_frame, example_constructed) ∧
  ∃ s1, @register_all example_host
          [(DragStarted, 1); (UpdateRequirement, 3); (DragStarted, 2)] example_instance
        = (Normal tt, s1) ∧
        ∀ s2, this s2 = this s1 →
              (event_data_args drag_event s2).1 = Normal (VNumber 7) →
              ∃ called,
                trace (@dispatch example_host DragStarted drag_event s2).2 = trace s2 ++ called ∧
                ∀ f v, (f, v) ∈ called →
                       v = VNumber 7 ∧
                       (DragStarted, f) ∈ [(DragStarted, 1); (UpdateRequirement, 3); (DragStarted, 2)].
Proof.
  split; [exact example_value_inj|]. split; [reflexivity|].
  apply (@dispatch_calls_only_its_kind example_host example_options example_realm
           example_frame example_constructed
           [(DragStarted, 1); (UpdateRequirement, 3); (DragStarted, 2)]
           DragStarted drag_event (VNumber 7) example_value_inj).
  reflexivity.
Defined.

Lemma registrations_of_different_kinds_commute_witness :
  @ViewerEvent_value example_host DragStarted ≠ @ViewerEvent_value example_host UpdateRequirement ∧
  (@on example_host DragStarted 1;; @on example_host UpdateRequirement 3) example_instance
  = (@on example_host UpdateRequirement 3;; @on example_host DragStarted 1) example_instance.
Proof.
  assert (@ViewerEvent_value example_host DragStarted
          ≠ @ViewerEvent_value example_host UpdateRequirement) as Hne
    by (vm_compute; discriminate).
  split; [exact Hne|].
  apply (@registrations_of_different_kinds_commute example_host
           DragStarted 1 UpdateRequirement 3 example_instance Hne).
Defined.

Lemma callbacks_stay_registered_witness :
  let s := (@register_all example_host [(DragStarted, 1); (DragStarted, 2)] example_instance).2 in
  @bucket example_host DragStarted s = Some [1; 2] ∧
  (∀ f rm, f ∈ [1; 2] → (@invoke example_host f (VNumber 7) rm).1 = Normal tt) ∧
  ∃ s', (@executeCallbacks example_host DragStarted (VNumber 7);;
         @executeCallbacks example_host DragStarted (VNumber 7)) s = (Normal tt, s') ∧
        trace s' = trace s ++ ((λ f, (f, VNumber 7)) <$> [1; 2]) ++ ((λ f, (f, VNumber 7)) <$> [1; 2]) ∧
        this s' = this s.
Proof.
  intros s.
  assert (@bucket example_host DragStarted s = Some [1; 2]) as Hb by (vm_compute; reflexivity).
  assert (∀ f rm, f ∈ [1; 2] → (@invoke example_host f (VNumber 7) rm).1 = Normal tt) as Hok.
  { intros f rm Hf. simpl. unfold example_invoke.
    rewrite decide_False; [done|]. intros ->.
    apply (bool_decide_pack _) in Hf. by vm_compute in Hf. }
  split; [exact Hb|]. split; [exact Hok|].
  apply (@callbacks_stay_registered example_host DragStarted (VNumber 7) s [1; 2] Hb Hok).
Defined.

(** ** Construction with a string that is not a selector *)

(** X13. [getContainer] does not guard the call of [document.querySelector]:
    when the string is not a valid selector, the [SyntaxError] that
    [querySelector] raises leaves the constructor as it is, and it is neither
    of the two errors the class throws for an unresolved container.  No
    instance is returned and the realm is left as it was. *)
Theorem constructor_invalid_selector options selector r :
  options_container options = Selector selector →
  querySelector (page r) selector = QSyntaxError →
  constructor options r = (Throw (DOMException "SyntaxError"), r) ∧
  ¬ ContainerResolutionError (DOMException "SyntaxError").
Proof.
  intros Hsel Hq.
  pose proof (constructor_run options r) as Hrun.
  unfold getContainer, bind, gets in Hrun. rewrite Hsel in Hrun. simpl in Hrun.
  rewrite Hq in Hrun. split; [exact Hrun|].
  by intros [E | E].
Qed.

Lemma constructor_invalid_selector_witness :
  options_container {| options_container := Selector "["; options_url := "/v" |}
  = Selector "[" ∧
  querySelector (page example_realm) "[" = QSyntaxError ∧
  constructor {| options_container := Selector "["; options_url := "/v" |} example_realm
  = (Throw (DOMException "SyntaxError"), example_realm) ∧
  ¬ ContainerResolutionError (DOMException "SyntaxError").
Proof.
  split; [reflexivity|]. split; [vm_compute; reflexivity|].
  apply (constructor_invalid_selector
           {| options_container := Selector "["; options_url := "/v" |} "[" example_realm);
    vm_compute; reflexivity.
Defined.
